(** * Braille transcoder: Grade-1 / Grade-2 encoders and bounded compression

    Shallow embedding of the rule-based transcoder found in
    [generate_data.py], [generate_hybrid.py] and [validate.py].

    Python strings are sequences of Unicode code points; a Braille cell is a
    code point of the block U+2800..U+28FF.  Dictionaries are kept as
    association lists in insertion order, because the code depends on that
    order twice: the stable [sorted] over the groupsign items, and the
    last-key-wins inversion that builds [G1_REVERSE]. *)

From Stdlib Require Import List NArith ZArith Bool String Ascii Lia.
From Stdlib Require Import Sorting.Sorted Sorting.Permutation.
Import ListNotations.
Open Scope string_scope.
Open Scope list_scope.

Set Implicit Arguments.

(* ================================================================== *)
(** ** Python strings *)

Module Py.

(** A character is a Unicode code point; a [str] is a list of them. *)
Definition char := N.
Definition pystr := list char.

(** Source literals are UTF-8 text.  [utf8_go] decodes a byte sequence into
    code points, so that tables can be written exactly as in the source. *)
Fixpoint utf8_go (need : nat) (acc : N) (bs : list N) : pystr :=
  match bs with
  | [] => []
  | b :: bs' =>
      match need with
      | S k =>
          let acc' := (acc * 64 + b mod 64)%N in
          match k with
          | O => acc' :: utf8_go 0 0%N bs'
          | S _ => utf8_go k acc' bs'
          end
      | O =>
          if (b <? 128)%N then b :: utf8_go 0 0%N bs'
          else if (b <? 224)%N then utf8_go 1 (b mod 32)%N bs'
          else if (b <? 240)%N then utf8_go 2 (b mod 16)%N bs'
          else utf8_go 3 (b mod 8)%N bs'
      end
  end.

Definition py (s : string) : pystr :=
  utf8_go 0 0%N (map N_of_ascii (list_ascii_of_string s)).

Definition char_eqb (a b : char) : bool := N.eqb a b.

Fixpoint str_eqb (a b : pystr) : bool :=
  match a, b with
  | [], [] => true
  | x :: a', y :: b' => char_eqb x y && str_eqb a' b'
  | _, _ => false
  end.

(** [len(s)] *)
Definition len (s : pystr) : Z := Z.of_nat (List.length s).

(** [sep.join(parts)] *)
Fixpoint join (sep : pystr) (parts : list pystr) : pystr :=
  match parts with
  | [] => []
  | [p] => p
  | p :: rest => p ++ sep ++ join sep rest
  end.

(** [s.split(sep)] for a one-character separator: empty fields are kept,
    and the empty string splits into one empty field. *)
Fixpoint split_on (sep : char) (s : pystr) : list pystr :=
  match s with
  | [] => [[]]
  | c :: s' =>
      if char_eqb c sep then [] :: split_on sep s'
      else match split_on sep s' with
           | w :: ws => (c :: w) :: ws
           | [] => [[c]]
           end
  end.

(** [s.startswith(p)] *)
Fixpoint startswith (p s : pystr) : bool :=
  match p, s with
  | [], _ => true
  | x :: p', y :: s' => char_eqb x y && startswith p' s'
  | _ :: _, [] => false
  end.

(** [s.replace(pat, rep)]: every non-overlapping occurrence, scanning from
    the left.  [skip] counts the characters of a match still to be consumed.
    With an empty pattern Python inserts [rep] before every character and at
    the end. *)
Fixpoint replace_go (pat rep : pystr) (skip : nat) (s : pystr) : pystr :=
  match s with
  | [] => []
  | c :: s' =>
      match skip with
      | S k => replace_go pat rep k s'
      | O =>
          if startswith pat s
          then rep ++ replace_go pat rep (pred (List.length pat)) s'
          else c :: replace_go pat rep 0 s'
      end
  end.

Definition replace (pat rep s : pystr) : pystr :=
  match pat with
  | [] => rep ++ flat_map (fun c => c :: rep) s
  | _ :: _ => replace_go pat rep 0 s
  end.

(** [l[:n]] for any integer [n] (a negative bound counts from the end). *)
Definition slice_to {A} (n : Z) (l : list A) : list A :=
  if (0 <=? n)%Z then firstn (Z.to_nat n) l
  else firstn (List.length l - Z.to_nat (- n)) l.

(** [max(words, key=len)] on a non-empty list: the first of the longest. *)
Fixpoint max_len_from (best : pystr) (ws : list pystr) : pystr :=
  match ws with
  | [] => best
  | w :: ws' =>
      if (len best <? len w)%Z then max_len_from w ws'
      else max_len_from best ws'
  end.

(** [sorted(l, key=key)]: stable, ascending in [key]. *)
Fixpoint insert_by {A} (key : A -> Z) (x : A) (l : list A) : list A :=
  match l with
  | [] => [x]
  | y :: l' =>
      if (key x <=? key y)%Z then x :: l else y :: insert_by key x l'
  end.

Definition sorted {A} (key : A -> Z) (l : list A) : list A :=
  fold_right (insert_by key) [] l.

(** *** Dictionaries with string keys, in insertion order *)

Definition dict := list (pystr * pystr).

Definition tbl (l : list (string * string)) : dict :=
  map (fun kv => (py (fst kv), py (snd kv))) l.

Fixpoint lookup (d : dict) (k : pystr) : option pystr :=
  match d with
  | [] => None
  | (k', v) :: d' => if str_eqb k k' then Some v else lookup d' k
  end.

(** [k in d] *)
Definition mem (d : dict) (k : pystr) : bool :=
  match lookup d k with Some _ => true | None => false end.

(** [d.get(k, default)] *)
Definition get (d : dict) (k default : pystr) : pystr :=
  match lookup d k with Some v => v | None => default end.

(** [d[k] = v]: an existing key keeps its position and takes the new value. *)
Fixpoint set (d : dict) (k v : pystr) : dict :=
  match d with
  | [] => [(k, v)]
  | (k', v') :: d' =>
      if str_eqb k k' then (k', v) :: d' else (k', v') :: set d' k v
  end.

(** [{v: k for k, v in d.items()}] *)
Definition invert (d : dict) : dict :=
  fold_left (fun acc kv => set acc (snd kv) (fst kv)) d [].

(** *** The part of the Unicode database the code consults

    [str.lower], [str.isalpha] and the whitespace test of [str.split()] are
    CPython built-ins driven by the Unicode character database.  They are
    kept abstract; only their behaviour on ASCII is fixed, which is all the
    tables (whose keys are ASCII) can observe.  Note that [str.lower] is a
    function of the whole string: it may change the length and is
    context-sensitive outside ASCII. *)

Definition is_ascii (c : char) : bool := (c <? 128)%N.

Definition ascii_lower (c : char) : char :=
  if ((65 <=? c) && (c <=? 90))%N then (c + 32)%N else c.

Definition ascii_isalpha (c : char) : bool :=
  ((65 <=? c) && (c <=? 90) || (97 <=? c) && (c <=? 122))%N.

Definition ascii_isspace (c : char) : bool :=
  ((9 <=? c) && (c <=? 13) || (28 <=? c) && (c <=? 32))%N.

Class Unicode := {
  lower : pystr -> pystr;
  isalpha : char -> bool;
  isspace : char -> bool;
  lower_ascii :
    forall s, forallb is_ascii s = true -> lower s = map ascii_lower s;
  isalpha_ascii :
    forall c, is_ascii c = true -> isalpha c = ascii_isalpha c;
  isspace_ascii :
    forall c, is_ascii c = true -> isspace c = ascii_isspace c
}.

(** An instance that treats every code point outside ASCII as caseless,
    non-alphabetic and non-blank.  It agrees with CPython on ASCII text. *)
Definition ascii_lower_str (s : pystr) : pystr := map ascii_lower s.
Definition ascii_only_isalpha (c : char) : bool := is_ascii c && ascii_isalpha c.
Definition ascii_only_isspace (c : char) : bool := is_ascii c && ascii_isspace c.

Definition AsciiOnly : Unicode :=
  {| lower := ascii_lower_str;
     isalpha := ascii_only_isalpha;
     isspace := ascii_only_isspace;
     lower_ascii := fun s _ => eq_refl;
     isalpha_ascii :=
       fun c H => f_equal (fun b : bool => b && ascii_isalpha c) H;
     isspace_ascii :=
       fun c H => f_equal (fun b : bool => b && ascii_isspace c) H |}.

(** [s.split()]: maximal runs of non-blank characters. *)
Fixpoint split_ws_go {U : Unicode} (cur : pystr) (s : pystr) : list pystr :=
  match s with
  | [] => match cur with [] => [] | _ :: _ => [cur] end
  | c :: s' =>
      if isspace c
      then match cur with
           | [] => split_ws_go [] s'
           | _ :: _ => cur :: split_ws_go [] s'
           end
      else split_ws_go (cur ++ [c]) s'
  end.

Definition split_ws {U : Unicode} (s : pystr) : list pystr := split_ws_go [] s.

End Py.

Import Py.

(** The blank cell U+2800, written as a literal throughout the source. *)
Definition BLANK : pystr := py "⠀".

(** A Braille cell is a code point of U+2800..U+28FF
    ([chr(0x2800 + i) for i in range(256)] in [braille_tokenizer.py]). *)
Definition is_cell (c : char) : bool := ((10240 <=? c) && (c <? 10496))%N.

(* ================================================================== *)
(** ** The transcoding engine

    [generate_data.py] and [generate_hybrid.py] carry the same function
    bodies over their own copies of the tables ([to_braille_g1] /
    [encode_g1], [to_braille_g2] / [encode_g2]); [validate.py] has the
    Grade-1 pair only.  The bodies are written once here, over the tables
    of the enclosing file. *)

Module Engine.
Section Tables.

Context {U : Unicode}.
Variables G1_MAP G2_STRONG G2_WORDSIGNS G2_LOWER G2_GROUPSIGNS : dict.

(** [to_braille_g1] / [encode_g1]:
    [''.join(G1_MAP.get(c.lower(), '⠀') for c in text)] *)
Definition g1_encode (text : pystr) : pystr :=
  join [] (map (fun c => get G1_MAP (lower [c]) BLANK) text).

(** [G1_REVERSE = {v: k for k, v in G1_MAP.items()}] *)
Definition g1_reverse : dict := invert G1_MAP.

(** [decode_g1]: [''.join(G1_REVERSE.get(c, ' ') for c in braille)] *)
Definition g1_decode (braille : pystr) : pystr :=
  join [] (map (fun c => get g1_reverse [c] (py " ")) braille).

(** [sorted(G2_GROUPSIGNS.items(), key=lambda x: -len(x[0]))] *)
Definition groupsign_order : list (pystr * pystr) :=
  sorted (fun x => (- len (fst x))%Z) G2_GROUPSIGNS.

(** The loop [contracted = contracted.replace(pattern, braille)]. *)
Definition contract (word : pystr) : pystr :=
  fold_left (fun contracted pb => replace (fst pb) (snd pb) contracted)
            groupsign_order word.

(** The loop over [contracted] that builds [final]. *)
Definition letter_pass (contracted : pystr) : pystr :=
  fold_left (fun final c =>
               match lookup G1_MAP [c] with
               | Some cell => final ++ cell
               | None => final ++ [c]
               end)
            contracted [].

(** The body of [for word in words]: what is appended to [result]. *)
Definition resolve_word (word : pystr) : pystr :=
  if mem G2_STRONG word then get G2_STRONG word []
  else if mem G2_WORDSIGNS word then get G2_WORDSIGNS word []
  else if mem G2_LOWER word then get G2_LOWER word []
  else letter_pass (contract word).

(** [to_braille_g2] / [encode_g2]: lower-case, split at single spaces,
    resolve each word into [result], join with the blank cell. *)
Definition g2_encode (text : pystr) : pystr :=
  let text := lower text in
  let words := split_on 32%N text in
  let result :=
    fold_left (fun result word => result ++ [resolve_word word]) words [] in
  join BLANK result.

(** *** [compress_to_n_cells] (generate_hybrid.py)

    The [while] loop need not terminate, so it is run on fuel. *)

(** [[w[0] for w in words if w and w[0].isalpha()]] *)
Definition initials (words : list pystr) : list char :=
  flat_map (fun w => match w with
                     | c :: _ => if isalpha c then [c] else []
                     | [] => []
                     end) words.

(** One run of [for c in longest[1:]]. *)
Definition pad_from (n : Z) (rest : pystr) (letters : list char) : list char :=
  fold_left (fun letters c =>
               if isalpha c && (len letters <? n)%Z
               then letters ++ [c] else letters)
            rest letters.

(** [max(words, key=len)] *)
Definition longest_word (words : list pystr) : pystr :=
  match words with
  | w :: ws => max_len_from w ws
  | [] => []
  end.

Definition nonempty {A} (l : list A) : bool :=
  match l with [] => false | _ :: _ => true end.

(** The [while] loop; [None] when the fuel runs out before the guard
    [len(letters) < n and words] turns false. *)
Fixpoint pad_loop (fuel : nat) (n : Z) (words : list pystr)
         (letters : list char) : option (list char) :=
  if (len letters <? n)%Z && nonempty words then
    match fuel with
    | O => None
    | S fuel' =>
        let longest := longest_word words in
        pad_loop fuel' n words (pad_from n (tl longest) letters)
    end
  else Some letters.

(** [f"Uses letters: {', '.join(letters)} from key words"] *)
Definition reasoning_of (letters : list char) : pystr :=
  py "Uses letters: " ++ join (py ", ") (map (fun l => [l]) letters)
     ++ py " from key words".

(** [''.join(G1_MAP.get(l, '⠀') for l in letters)] *)
Definition cells_of (letters : list char) : pystr :=
  join [] (map (fun l => get G1_MAP [l] BLANK) letters).

(** The value of [letters] at the last assignment [letters = letters[:n]]. *)
Definition select_letters (fuel : nat) (text : pystr) (n : Z)
  : option (list char) :=
  let words := split_ws (lower text) in
  let letters := slice_to n (initials words) in
  match pad_loop fuel n words letters with
  | None => None
  | Some letters => Some (slice_to n letters)
  end.

Definition compress (fuel : nat) (text : pystr) (n : Z)
  : option (pystr * pystr) :=
  match select_letters fuel text n with
  | None => None
  | Some letters => Some (cells_of letters, reasoning_of letters)
  end.

End Tables.
End Engine.

(* ================================================================== *)
(** ** generate_data.py *)

Module generate_data.

Definition G1_MAP : dict := Eval vm_compute in tbl
  [("a", "⠁"); ("b", "⠃"); ("c", "⠉"); ("d", "⠙"); ("e", "⠑");
   ("f", "⠋"); ("g", "⠛"); ("h", "⠓"); ("i", "⠊"); ("j", "⠚");
   ("k", "⠅"); ("l", "⠇"); ("m", "⠍"); ("n", "⠝"); ("o", "⠕");
   ("p", "⠏"); ("q", "⠟"); ("r", "⠗"); ("s", "⠎"); ("t", "⠞");
   ("u", "⠥"); ("v", "⠧"); ("w", "⠺"); ("x", "⠭"); ("y", "⠽");
   ("z", "⠵"); (" ", "⠀"); (".", "⠲"); (",", "⠂"); ("!", "⠖");
   ("?", "⠦"); ("-", "⠤")].

Definition G2_WORDSIGNS : dict := Eval vm_compute in tbl
  [("but", "⠃"); ("can", "⠉"); ("do", "⠙"); ("every", "⠑"); ("from", "⠋");
   ("go", "⠛"); ("have", "⠓"); ("just", "⠚"); ("knowledge", "⠅"); ("like", "⠇");
   ("more", "⠍"); ("not", "⠝"); ("people", "⠏"); ("quite", "⠟"); ("rather", "⠗");
   ("so", "⠎"); ("that", "⠞"); ("us", "⠥"); ("very", "⠧"); ("will", "⠺");
   ("it", "⠭"); ("you", "⠽"); ("as", "⠵")].

Definition G2_STRONG : dict := Eval vm_compute in tbl
  [("the", "⠮"); ("and", "⠯"); ("for", "⠿"); ("of", "⠷"); ("with", "⠾");
   ("child", "⠡"); ("shall", "⠩"); ("this", "⠹"); ("which", "⠱"); ("out", "⠳");
   ("still", "⠌")].

Definition G2_GROUPSIGNS : dict := Eval vm_compute in tbl
  [("ch", "⠡"); ("gh", "⠣"); ("sh", "⠩"); ("th", "⠹"); ("wh", "⠱");
   ("ed", "⠫"); ("er", "⠻"); ("ou", "⠳"); ("ow", "⠪"); ("st", "⠌");
   ("ar", "⠜"); ("ing", "⠬"); ("ble", "⠼")].

Definition G2_LOWER : dict := Eval vm_compute in tbl
  [("be", "⠆"); ("enough", "⠢"); ("were", "⠶"); ("his", "⠦"); ("in", "⠔");
   ("was", "⠴"); ("to", "⠖"); ("into", "⠔⠖"); ("by", "⠃⠽")].

Definition to_braille_g1 {U : Unicode} (text : pystr) : pystr :=
  Engine.g1_encode G1_MAP text.

Definition resolve_word : pystr -> pystr :=
  Engine.resolve_word G1_MAP G2_STRONG G2_WORDSIGNS G2_LOWER G2_GROUPSIGNS.

Definition to_braille_g2 {U : Unicode} (text : pystr) : pystr :=
  Engine.g2_encode G1_MAP G2_STRONG G2_WORDSIGNS G2_LOWER G2_GROUPSIGNS text.

End generate_data.

(* ================================================================== *)
(** ** generate_hybrid.py *)

Module generate_hybrid.

Definition G1_MAP : dict := Eval vm_compute in tbl
  [("a", "⠁"); ("b", "⠃"); ("c", "⠉"); ("d", "⠙"); ("e", "⠑");
   ("f", "⠋"); ("g", "⠛"); ("h", "⠓"); ("i", "⠊"); ("j", "⠚");
   ("k", "⠅"); ("l", "⠇"); ("m", "⠍"); ("n", "⠝"); ("o", "⠕");
   ("p", "⠏"); ("q", "⠟"); ("r", "⠗"); ("s", "⠎"); ("t", "⠞");
   ("u", "⠥"); ("v", "⠧"); ("w", "⠺"); ("x", "⠭"); ("y", "⠽");
   ("z", "⠵"); (" ", "⠀"); (".", "⠲"); (",", "⠂"); ("!", "⠖");
   ("?", "⠦"); ("-", "⠤"); ("'", "⠄"); (":", "⠒"); (";", "⠆");
   ("0", "⠴"); ("1", "⠂"); ("2", "⠆"); ("3", "⠒"); ("4", "⠲");
   ("5", "⠢"); ("6", "⠖"); ("7", "⠶"); ("8", "⠦"); ("9", "⠔")].

Definition G2_STRONG : dict := Eval vm_compute in tbl
  [("the", "⠮"); ("and", "⠯"); ("for", "⠿"); ("of", "⠷"); ("with", "⠾");
   ("child", "⠡"); ("shall", "⠩"); ("this", "⠹"); ("which", "⠱"); ("out", "⠳");
   ("still", "⠌")].

Definition G2_WORDSIGNS : dict := Eval vm_compute in tbl
  [("but", "⠃"); ("can", "⠉"); ("do", "⠙"); ("every", "⠑"); ("from", "⠋");
   ("go", "⠛"); ("have", "⠓"); ("just", "⠚"); ("knowledge", "⠅"); ("like", "⠇");
   ("more", "⠍"); ("not", "⠝"); ("people", "⠏"); ("quite", "⠟"); ("rather", "⠗");
   ("so", "⠎"); ("that", "⠞"); ("us", "⠥"); ("very", "⠧"); ("will", "⠺");
   ("it", "⠭"); ("you", "⠽"); ("as", "⠵")].

Definition G2_GROUPSIGNS : dict := Eval vm_compute in tbl
  [("ing", "⠬"); ("ble", "⠼"); ("ch", "⠡"); ("gh", "⠣"); ("sh", "⠩");
   ("th", "⠹"); ("wh", "⠱"); ("ed", "⠫"); ("er", "⠻"); ("ou", "⠳");
   ("ow", "⠪"); ("st", "⠌"); ("ar", "⠜"); ("en", "⠢"); ("in", "⠔")].

Definition G2_LOWER : dict := Eval vm_compute in tbl
  [("be", "⠆"); ("enough", "⠢"); ("were", "⠶"); ("his", "⠦"); ("was", "⠴");
   ("to", "⠖"); ("into", "⠔⠖"); ("by", "⠃⠽")].

Definition G1_REVERSE : dict := Eval vm_compute in Engine.g1_reverse G1_MAP.

Definition encode_g1 {U : Unicode} (text : pystr) : pystr :=
  Engine.g1_encode G1_MAP text.

Definition decode_g1 (braille : pystr) : pystr :=
  Engine.g1_decode G1_MAP braille.

Definition resolve_word : pystr -> pystr :=
  Engine.resolve_word G1_MAP G2_STRONG G2_WORDSIGNS G2_LOWER G2_GROUPSIGNS.

Definition encode_g2 {U : Unicode} (text : pystr) : pystr :=
  Engine.g2_encode G1_MAP G2_STRONG G2_WORDSIGNS G2_LOWER G2_GROUPSIGNS text.

Definition compress_to_n_cells {U : Unicode} (fuel : nat) (text : pystr) (n : Z)
  : option (pystr * pystr) :=
  Engine.compress G1_MAP fuel text n.

End generate_hybrid.

(* ================================================================== *)
(** ** validate.py *)

Module validate.

Definition G1_MAP : dict := Eval vm_compute in tbl
  [("a", "⠁"); ("b", "⠃"); ("c", "⠉"); ("d", "⠙"); ("e", "⠑");
   ("f", "⠋"); ("g", "⠛"); ("h", "⠓"); ("i", "⠊"); ("j", "⠚");
   ("k", "⠅"); ("l", "⠇"); ("m", "⠍"); ("n", "⠝"); ("o", "⠕");
   ("p", "⠏"); ("q", "⠟"); ("r", "⠗"); ("s", "⠎"); ("t", "⠞");
   ("u", "⠥"); ("v", "⠧"); ("w", "⠺"); ("x", "⠭"); ("y", "⠽");
   ("z", "⠵"); (" ", "⠀")].

Definition G1_REVERSE : dict := Eval vm_compute in Engine.g1_reverse G1_MAP.

Definition encode_g1 {U : Unicode} (text : pystr) : pystr :=
  Engine.g1_encode G1_MAP text.

Definition decode_g1 (braille : pystr) : pystr :=
  Engine.g1_decode G1_MAP braille.

End validate.

(* ================================================================== *)
(** ** Predicates used in the statements *)

(** Every value of the table is one Braille cell. *)
Definition single_cells (d : dict) : bool :=
  forallb (fun kv => match snd kv with
                     | [x] => is_cell x
                     | _ => false
                     end) d.

(** Characters of a Grade-1 table that can survive a round trip: ASCII, with
    a lower-case form that is a key, and not in the list [lost] of keys whose
    cell a later key reuses. *)
Definition survives (G1_MAP : dict) (lost : pystr) (c : char) : bool :=
  is_ascii c && mem G1_MAP [ascii_lower c] && negb (existsb (char_eqb c) lost).

Definition round_trip_char (G1_MAP : dict) (lost : pystr) (c : char) : bool :=
  implb (survives G1_MAP lost c)
        (str_eqb (Engine.g1_decode G1_MAP (get G1_MAP [ascii_lower c] BLANK))
                 [ascii_lower c]).

(** The punctuation keys of [generate_hybrid.G1_MAP] whose cells the digit
    keys 4 1 6 8 2 3 take over in [G1_REVERSE]. *)
Definition hybrid_lost_keys : pystr := py ".,!?;:".

(** The selection of initials as the specification words it: the first
    alphabetic character of each word, wherever it stands in the word.
    (The code takes the first character of a word, and only when it is
    alphabetic: [Engine.initials].) *)
Definition spec_first_alphabetic {U : Unicode} (words : list pystr)
  : list char :=
  flat_map (fun w => match find isalpha w with
                     | Some c => [c]
                     | None => []
                     end) words.

(** [pat in s] *)
Fixpoint contains (pat s : pystr) : bool :=
  match s with
  | [] => startswith pat []
  | _ :: s' => startswith pat s || contains pat s'
  end.

(** The Grade-1 keys that only [generate_hybrid.py] has: the apostrophe, the
    colon, the semicolon and the ten digits. *)
Definition hybrid_only_g1 : dict := skipn 32 generate_hybrid.G1_MAP.

(** The groupsigns that only [generate_hybrid.py] has. *)
Definition hybrid_only_groupsigns : dict := Eval vm_compute in
  tbl [("en", "⠢"); ("in", "⠔")].

(** Words on which the tables of the two files cannot tell the encoders
    apart: keys of a whole-word table of [generate_data.py], and words that
    after the groupsign substitutions of [generate_data.py] hold neither a
    cluster nor a character that only [generate_hybrid.py] maps. *)
Definition g2_same_word (word : pystr) : bool :=
  mem generate_data.G2_STRONG word
  || mem generate_data.G2_WORDSIGNS word
  || mem generate_data.G2_LOWER word
  || (let contracted :=
        Engine.contract generate_data.G2_GROUPSIGNS word in
      forallb (fun pb => negb (contains (fst pb) contracted))
              hybrid_only_groupsigns
      && forallb (fun c => negb (mem hybrid_only_g1 [c])) contracted).


(** A character that is neither the letter n nor a Grade-1 key of
    [generate_hybrid.py] alone. *)
Definition shared_char (c : char) : bool :=
  negb (char_eqb c 110%N) && negb (mem hybrid_only_g1 [c]).

(** Text made of ASCII characters only. *)
Definition ascii_str (s : pystr) : Prop := forallb is_ascii s = true.

(** All values of a table are made of Braille cells. *)
Definition cell_values (d : dict) : Prop :=
  Forall (fun kv => Forall (fun x => is_cell x = true) (snd kv)) d.

(** A character of a Grade-2 output is a cell, or a character of the
    lower-cased input that is not a key of [G1_MAP] and was copied as it
    is. *)
Definition cell_or_raw (G1_MAP : dict) (text : pystr) (x : char) : Prop :=
  is_cell x = true \/ (In x text /\ mem G1_MAP [x] = false).

(* ================================================================== *)
(** ** Further code of the repository

    The derived tables of [generate_hybrid.py], the "combine" task that
    samples them, the vocabulary of [braille_tokenizer.py], and the cell
    counts of [validate.py]. *)

Module More.

(** Dictionaries with string keys and values of any type. *)
Fixpoint lookup_in {V} (d : list (pystr * V)) (k : pystr) : option V :=
  match d with
  | [] => None
  | (k', v) :: d' => if str_eqb k k' then Some v else lookup_in d' k
  end.

Fixpoint set_in {V} (d : list (pystr * V)) (k : pystr) (v : V)
  : list (pystr * V) :=
  match d with
  | [] => [(k, v)]
  | (k', v') :: d' =>
      if str_eqb k k' then (k', v) :: d' else (k', v') :: set_in d' k v
  end.

(** [{**d1, **d2, ...}]: the items are stored from left to right. *)
Definition unpack (ds : list dict) : dict :=
  fold_left (fun acc d => fold_left (fun acc kv => set acc (fst kv) (snd kv))
                                    d acc)
            ds [].

(** [enumerate(l)] *)
Definition enumerate {A} (l : list A) : list (Z * A) :=
  combine (map Z.of_nat (seq 0 (List.length l))) l.

End More.

Module generate_hybrid_tasks.

(** [G2_ALL = {**G2_STRONG, **G2_WORDSIGNS, **G2_LOWER}] *)
Definition G2_ALL : dict := Eval vm_compute in
  More.unpack [generate_hybrid.G2_STRONG; generate_hybrid.G2_WORDSIGNS;
               generate_hybrid.G2_LOWER].

(** [G2_REVERSE = {v: k for k, v in G2_ALL.items()}] *)
Definition G2_REVERSE : dict := Eval vm_compute in invert G2_ALL.

(** The "combine" variant of [generate_reasoning_example], for the two
    items [cells[0]], [cells[1]] that [random.sample] drew from
    [G2_ALL.items()]: the strings [combined] and [meaning]. *)
Definition combine (item1 item2 : pystr * pystr) : pystr * pystr :=
  let (word1, braille1) := item1 in
  let (word2, braille2) := item2 in
  let combined := braille1 ++ braille2 in
  let meaning := word1 ++ py " " ++ word2 in
  (combined, meaning).

End generate_hybrid_tasks.

Module braille_tokenizer.

Definition special_tokens : list pystr :=
  map py ["[PAD]"; "[BOS]"; "[EOS]"; "[UNK]"].

(** [[chr(0x2800 + i) for i in range(256)]] *)
Definition braille_cells : list pystr :=
  map (fun i => [(10240 + N.of_nat i)%N]) (seq 0 256).

(** [{token: i for i, token in enumerate(special_tokens + braille_cells)}] *)
Definition vocab : list (pystr * Z) := Eval vm_compute in
  fold_left (fun acc it => More.set_in acc (snd it) (fst it))
            (More.enumerate (special_tokens ++ braille_cells)) [].

End braille_tokenizer.

Module validate_probes.

(** [[c for c in generated if 0x2800 <= ord(c) <= 0x28FF]]
    ([probe_compression]). *)
Definition braille_cells (generated : pystr) : pystr :=
  filter (fun c => (10240 <=? c) && (c <=? 10495))%N generated.

(** [G2_STRONG] of [validate.py], the expected answers of
    [probe_g2_staples]. *)
Definition G2_STRONG : dict := Eval vm_compute in tbl
  [("the", "⠮"); ("and", "⠯"); ("for", "⠿"); ("of", "⠷"); ("with", "⠾")].

(** [is_valid = len(braille_cells) == n_cells] *)
Definition is_valid (generated : pystr) (n_cells : Z) : bool :=
  (len (braille_cells generated) =? n_cells)%Z.

(** [g1_len = len(g1.replace('⠀', ''))] for [g1 = encode_g1(phrase)]
    ([test_braille_native]). *)
Definition g1_len {U : Unicode} (phrase : pystr) : Z :=
  len (replace (py "⠀") (py "") (validate.encode_g1 phrase)).

(** [english_len = len(phrase.replace(' ', ''))] *)
Definition english_len (phrase : pystr) : Z :=
  len (replace (py " ") (py "") phrase).

End validate_probes.

(** What the validator's decoder makes of one character of a text: its
    lower-case form when that is a key of [validate.G1_MAP], a space
    otherwise. *)
Definition letter_or_space {U : Unicode} (c : char) : pystr :=
  if mem validate.G1_MAP (lower [c]) then lower [c] else py " ".

(** A cell that is a value of the table stays, anything else becomes the
    blank cell. *)
Definition cell_or_blank (G1_MAP : dict) (c : char) : char :=
  if mem (Engine.g1_reverse G1_MAP) [c] then c else 10240%N.

(** The Grade-1 keys that [validate.py] does not have. *)
Definition data_only_g1 : dict := skipn 27 generate_data.G1_MAP.

(** ASCII letters and the space. *)
Definition letter_or_blank (c : char) : bool :=
  ascii_isalpha c || char_eqb c 32%N.

(** ASCII whitespace only. *)
Definition blank_text (s : pystr) : bool :=
  forallb (fun c => is_ascii c && ascii_isspace c) s.

(** A word that [lower] and [split(' ')] leave as it is. *)
Definition plain_word (w : pystr) : bool :=
  forallb is_ascii w && str_eqb (map ascii_lower w) w
  && negb (existsb (fun c => char_eqb c 32%N) w).

(** Checks on the entries of a table, used to lift a finite verification
    to every string. *)

(** The decoder of table [D] reads the cell of an entry of an encoder table
    back as the key when [D] has that key, as a space otherwise. *)
Definition decodes_entry (D : dict) (kv : pystr * pystr) : bool :=
  str_eqb (Engine.g1_decode D (snd kv))
          (if mem D (fst kv) then fst kv else py " ").

(** The encoder of table [G], on ASCII text. *)
Definition g1_encode_ascii (G : dict) (text : pystr) : pystr :=
  flat_map (fun c => get G [ascii_lower c] BLANK) text.

(** An entry [(cell, key)] of the reverse table encodes back to the cell. *)
Definition reencodes_entry (G : dict) (kv : pystr * pystr) : bool :=
  forallb is_ascii (snd kv) && str_eqb (g1_encode_ascii G (snd kv)) (fst kv)
  && match fst kv with [_] => true | _ => false end.

(** For an ASCII letter or space, the number of non-blank cells that
    [validate.encode_g1] produces is the number of non-space characters. *)
Definition counts_alike (c : char) : bool :=
  implb (letter_or_blank c)
        (Nat.eqb
           (List.length
              (filter (fun x => negb (char_eqb 10240%N x))
                      (get validate.G1_MAP [ascii_lower c] BLANK)))
           (List.length (filter (fun x => negb (char_eqb 32%N x)) [c]))).

(** A replacement is never longer than its (non-empty) pattern; a cell
    sequence is never longer than the word it stands for. *)
Definition shrinking (d : dict) : bool :=
  forallb (fun kv => Engine.nonempty (fst kv)
                     && Nat.leb (List.length (snd kv)) (List.length (fst kv)))
          d.

(** An item of [G2_ALL] is a plain word, is encoded by [encode_g2] as its
    cells, and is found again under them in [G2_REVERSE]. *)
Definition reversible_item (kv : pystr * pystr) : bool :=
  plain_word (fst kv)
  && str_eqb (generate_hybrid.resolve_word (fst kv)) (snd kv)
  && match lookup generate_hybrid_tasks.G2_REVERSE (snd kv) with
     | Some k => str_eqb k (fst kv)
     | None => false
     end.

(** The vocabulary gives a cell the id 4 plus its offset in the block. *)
Definition has_cell_id (c : char) : bool :=
  match More.lookup_in braille_tokenizer.vocab [c] with
  | Some i => (i =? Z.of_N c - 10240 + 4)%Z
  | None => false
  end.

(** A staple of [validate.py] is a plain word that both Grade-2 encoders
    resolve to the cell the validator expects. *)
Definition staple_agrees (kv : pystr * pystr) : bool :=
  plain_word (fst kv)
  && str_eqb (generate_data.resolve_word (fst kv)) (snd kv)
  && str_eqb (generate_hybrid.resolve_word (fst kv)) (snd kv).


(* ================================================================== *)
(** ** Basic facts about the Python primitives *)

Section PyFacts.

Lemma char_eqb_eq (a b : char) : char_eqb a b = true <-> a = b.
Proof. apply N.eqb_eq. Qed.

Lemma str_eqb_eq (a b : pystr) : str_eqb a b = true <-> a = b.
Proof.
  revert b; induction a as [|x a IH]; intros [|y b]; simpl;
    try (split; [discriminate | discriminate]); try tauto.
  rewrite andb_true_iff, char_eqb_eq, IH.
  split; [intros [-> ->]; reflexivity | intros E; inversion E; auto].
Qed.

Lemma lookup_In (d : dict) (k v : pystr) :
  lookup d k = Some v -> In (k, v) d.
Proof.
  induction d as [|[k' v'] d IH]; simpl; [discriminate|].
  destruct (str_eqb k k') eqn:E.
  - intros [= <-]. apply str_eqb_eq in E. subst. now left.
  - intros H. right. auto.
Qed.

Lemma join_nil_concat (parts : list pystr) : join [] parts = List.concat parts.
Proof.
  induction parts as [|p [|q rest] IH]; simpl in *; auto.
  - now rewrite app_nil_r.
  - now rewrite IH.
Qed.

Lemma ascii_range (c : char) :
  is_ascii c = true -> In c (map N.of_nat (seq 0 128)).
Proof.
  unfold is_ascii. rewrite N.ltb_lt. intros H.
  rewrite <- (N2Nat.id c). apply in_map, in_seq. lia.
Qed.

(** A boolean property checked on the 128 ASCII code points holds of every
    ASCII character. *)
Lemma ascii_cases (P : char -> bool) :
  forallb P (map N.of_nat (seq 0 128)) = true ->
  forall c, is_ascii c = true -> P c = true.
Proof.
  intros H c Hc. rewrite forallb_forall in H. now apply H, ascii_range.
Qed.

Lemma lower_char `{Unicode} (c : char) :
  is_ascii c = true -> lower [c] = [ascii_lower c].
Proof. intros Hc. rewrite lower_ascii; simpl; [reflexivity | now rewrite Hc]. Qed.

End PyFacts.

(* ================================================================== *)
(** ** Grade-1 codec *)

Section Grade1.

Context {U : Unicode}.
Variable G1_MAP : dict.

Let enc (c : char) : pystr := get G1_MAP (lower [c]) BLANK.
Let dec (c : char) : pystr := get (Engine.g1_reverse G1_MAP) [c] (py " ").

Lemma g1_encode_concat (text : pystr) :
  Engine.g1_encode G1_MAP text = flat_map enc text.
Proof. unfold Engine.g1_encode. now rewrite join_nil_concat, flat_map_concat_map. Qed.

Lemma g1_decode_concat (braille : pystr) :
  Engine.g1_decode G1_MAP braille = flat_map dec braille.
Proof. unfold Engine.g1_decode. now rewrite join_nil_concat, flat_map_concat_map. Qed.

Lemma g1_decode_app (a b : pystr) :
  Engine.g1_decode G1_MAP (a ++ b)
  = Engine.g1_decode G1_MAP a ++ Engine.g1_decode G1_MAP b.
Proof. rewrite !g1_decode_concat. apply flat_map_app. Qed.

Hypothesis G1_single : single_cells G1_MAP = true.

Lemma enc_single (c : char) : exists x, enc c = [x] /\ is_cell x = true.
Proof.
  unfold enc, get.
  destruct (lookup G1_MAP (lower [c])) as [v|] eqn:E.
  - apply lookup_In in E. unfold single_cells in G1_single.
    rewrite forallb_forall in G1_single. specialize (G1_single _ E).
    simpl in G1_single. destruct v as [|x [|y v]]; try discriminate. eauto.
  - exists 10240%N. split; reflexivity.
Qed.

Lemma g1_encode_one_cell_per_char (text : pystr) :
  len (Engine.g1_encode G1_MAP text) = len text
  /\ forallb is_cell (Engine.g1_encode G1_MAP text) = true.
Proof.
  rewrite g1_encode_concat. unfold len.
  induction text as [|c text [IHl IHc]]; simpl; [auto|].
  destruct (enc_single c) as (x & -> & Hx). simpl.
  rewrite Hx, IHc. split; [lia | reflexivity].
Qed.

Lemma g1_round_trip_from_table (lost : pystr) :
  forallb (round_trip_char G1_MAP lost) (map N.of_nat (seq 0 128)) = true ->
  forall s, forallb (survives G1_MAP lost) s = true ->
    Engine.g1_decode G1_MAP (Engine.g1_encode G1_MAP s) = lower s.
Proof.
  intros Htab s Hs.
  assert (Hascii : forallb is_ascii s = true).
  { rewrite forallb_forall in *. intros c Hc. specialize (Hs c Hc).
    unfold survives in Hs. rewrite !andb_true_iff in Hs. tauto. }
  rewrite (lower_ascii s Hascii), g1_encode_concat.
  induction s as [|c s IH]; [reflexivity|].
  simpl in Hs, Hascii. apply andb_true_iff in Hs as [Hc Hs].
  apply andb_true_iff in Hascii as [Ac As].
  simpl. rewrite g1_decode_app, (IH Hs As). unfold enc at 1.
  rewrite (lower_char c Ac).
  pose proof (ascii_cases _ Htab c Ac) as Hrt. unfold round_trip_char in Hrt.
  rewrite Hc in Hrt. simpl in Hrt. apply str_eqb_eq in Hrt. now rewrite Hrt.
Qed.

End Grade1.

(** C4. The Grade-1 encoder of every file (and [to_braille_g1] in particular)
    returns exactly one Braille cell per input character, whatever the
    characters are: [len(encode_g1(s)) == len(s)]. *)
Theorem g1_length_invariant :
  forall (U : Unicode) (s : pystr),
    (len (generate_data.to_braille_g1 s) = len s
     /\ forallb is_cell (generate_data.to_braille_g1 s) = true)
    /\ len (generate_hybrid.encode_g1 s) = len s
    /\ len (validate.encode_g1 s) = len s.
Proof.
  intros U s. repeat split;
    apply g1_encode_one_cell_per_char; vm_compute; reflexivity.
Qed.

(** C3 (as stated) fails in [generate_hybrid.py]: the period is a key of the
    Grade-1 table, yet its cell decodes to the digit 4, the later key with
    the same cell. *)
Lemma g1_round_trip_period_counterexample :
  mem generate_hybrid.G1_MAP (py ".") = true
  /\ generate_hybrid.decode_g1 (@generate_hybrid.encode_g1 AsciiOnly (py "."))
     <> @lower AsciiOnly (py ".").
Proof. split; [reflexivity | vm_compute; discriminate]. Qed.

Example g1_period_decodes_to_four :
  generate_hybrid.decode_g1 (@generate_hybrid.encode_g1 AsciiOnly (py "."))
  = py "4".
Proof. reflexivity. Qed.

(** C3 (amended). Decoding the Grade-1 encoding of [s] gives back the
    lower-cased [s] for every [s] over the keys of the table (upper-case
    letters included): for all of them in [validate.py]; in
    [generate_hybrid.py] for all but the six punctuation keys [. , ! ? ; :],
    whose cells are shared with digits. *)
Theorem g1_round_trip :
  forall (U : Unicode) (s : pystr),
    (forallb (survives validate.G1_MAP []) s = true ->
       validate.decode_g1 (validate.encode_g1 s) = lower s)
    /\ (forallb (survives generate_hybrid.G1_MAP hybrid_lost_keys) s = true ->
         generate_hybrid.decode_g1 (generate_hybrid.encode_g1 s) = lower s)
    /\ generate_hybrid.decode_g1 (generate_hybrid.encode_g1 (py "hello"))
       = py "hello".
Proof.
  intros U s.
  assert (Hh : forall t,
             forallb (survives generate_hybrid.G1_MAP hybrid_lost_keys) t = true ->
             generate_hybrid.decode_g1 (generate_hybrid.encode_g1 t) = lower t).
  { apply g1_round_trip_from_table; vm_compute; reflexivity. }
  split; [|split].
  - apply g1_round_trip_from_table; vm_compute; reflexivity.
  - apply Hh.
  - rewrite (Hh (py "hello") eq_refl). now rewrite lower_ascii.
Qed.

Lemma g1_round_trip_hello :
  (forallb (survives validate.G1_MAP []) (py "hello") = true
   /\ validate.decode_g1 (@validate.encode_g1 AsciiOnly (py "hello"))
      = py "hello")
  /\ (forallb (survives generate_hybrid.G1_MAP hybrid_lost_keys) (py "hello")
      = true
      /\ generate_hybrid.decode_g1
           (@generate_hybrid.encode_g1 AsciiOnly (py "hello"))
         = py "hello").
Proof.
  split; (split; [reflexivity|]).
  - exact (proj1 (g1_round_trip AsciiOnly (py "hello")) eq_refl).
  - exact (proj1 (proj2 (g1_round_trip AsciiOnly (py "hello"))) eq_refl).
Defined.

(* ================================================================== *)
(** ** Grade-2 word resolver *)

Section Grade2.

Context {U : Unicode}.
Variables G1_MAP G2_STRONG G2_WORDSIGNS G2_LOWER G2_GROUPSIGNS : dict.

Let resolve := Engine.resolve_word G1_MAP G2_STRONG G2_WORDSIGNS G2_LOWER
                                   G2_GROUPSIGNS.
Let g2 := Engine.g2_encode G1_MAP G2_STRONG G2_WORDSIGNS G2_LOWER
                           G2_GROUPSIGNS.

Lemma result_loop {A B} (f : A -> B) (xs : list A) (acc : list B) :
  fold_left (fun result x => result ++ [f x]) xs acc = acc ++ map f xs.
Proof.
  revert acc; induction xs as [|x xs IH]; intros acc; simpl.
  - now rewrite app_nil_r.
  - now rewrite IH, <- app_assoc.
Qed.

(** The output is the per-word results joined by the blank cell. *)
Lemma g2_encode_join (text : pystr) :
  g2 text = join BLANK (map resolve (split_on 32%N (lower text))).
Proof.
  unfold g2, Engine.g2_encode. cbv zeta. now rewrite result_loop.
Qed.

(** The [if]/[elif] chain as a first-match lookup. *)
Lemma resolve_word_first_match (word : pystr) :
  resolve word =
  match lookup G2_STRONG word with
  | Some cell => cell
  | None =>
      match lookup G2_WORDSIGNS word with
      | Some cell => cell
      | None =>
          match lookup G2_LOWER word with
          | Some cells => cells
          | None =>
              Engine.letter_pass G1_MAP
                (Engine.contract G2_GROUPSIGNS word)
          end
      end
  end.
Proof.
  unfold resolve, Engine.resolve_word, mem, get.
  destruct (lookup G2_STRONG word); [reflexivity|].
  destruct (lookup G2_WORDSIGNS word); [reflexivity|].
  destruct (lookup G2_LOWER word); reflexivity.
Qed.

End Grade2.

Section Spaces.

Context {U : Unicode}.




End Spaces.

(** Evaluation of an encoder on an ASCII literal: the case law of [lower]
    first, the rest by computation. *)
Ltac run_g2 :=
  unfold generate_data.to_braille_g2, generate_hybrid.encode_g2,
         Engine.g2_encode;
  rewrite ?lower_ascii by reflexivity;
  vm_compute; reflexivity.

(** C8. The per-word cell sequences are joined with the blank cell; "the cat"
    is the cell of "the", the blank cell, and the three letter cells of
    "cat". *)
Theorem g2_joins_with_separator :
  forall (U : Unicode),
    (forall text,
        generate_data.to_braille_g2 text
        = join (py "⠀") (map generate_data.resolve_word
                             (split_on 32%N (lower text))))
    /\ (forall text,
          generate_hybrid.encode_g2 text
          = join (py "⠀") (map generate_hybrid.resolve_word
                               (split_on 32%N (lower text))))
    /\ generate_data.to_braille_g2 (py "the cat") = py "⠮⠀⠉⠁⠞"
    /\ generate_hybrid.encode_g2 (py "the cat") = py "⠮⠀⠉⠁⠞"
    /\ generate_data.resolve_word (py "the") = py "⠮"
    /\ generate_data.resolve_word (py "cat") = py "⠉⠁⠞".
Proof.
  intros U. split; [|split].
  - intros text. apply g2_encode_join.
  - intros text. apply g2_encode_join.
  - repeat split; run_g2.
Qed.


(* ================================================================== *)
(** ** Order of the groupsign patterns *)

Section StableSort.

Variable A : Type.
Variable key : A -> Z.


Lemma insert_by_perm (x : A) (l : list A) :
  Permutation (insert_by key x l) (x :: l).
Proof.
  induction l as [|y l IH]; simpl; [reflexivity|].
  destruct (key x <=? key y)%Z; [reflexivity|].
  rewrite IH. apply perm_swap.
Qed.

Lemma sorted_perm (l : list A) : Permutation (sorted key l) l.
Proof.
  induction l as [|x l IH]; simpl; [reflexivity|].
  rewrite insert_by_perm. now constructor.
Qed.



(** Stability: items with the same key keep their order. *)
Lemma insert_by_class (k : Z) (x : A) (l : list A) :
  filter (fun a => key a =? k)%Z (insert_by key x l)
  = filter (fun a => key a =? k)%Z (x :: l).
Proof.
  induction l as [|y l IH]; [reflexivity|].
  simpl insert_by. destruct (key x <=? key y)%Z eqn:E; [reflexivity|].
  apply Z.leb_gt in E. simpl in *. rewrite IH.
  destruct (key x =? k)%Z eqn:Ex; [|reflexivity].
  apply Z.eqb_eq in Ex.
  assert ((key y =? k)%Z = false) as -> by (apply Z.eqb_neq; lia).
  reflexivity.
Qed.

Lemma sorted_stable (k : Z) (l : list A) :
  filter (fun a => key a =? k)%Z (sorted key l)
  = filter (fun a => key a =? k)%Z l.
Proof.
  induction l as [|x l IH]; [reflexivity|].
  simpl sorted. rewrite insert_by_class. simpl. now rewrite IH.
Qed.

End StableSort.



(** C6 fails on the code: a character that is not a key of [G1_MAP] and not
    part of a groupsign is copied to the output as it is, where the Grade-1
    encoder of the same file puts the blank cell.  The digit 1 in
    [generate_data.py] and the at sign in [generate_hybrid.py] come out
    unchanged, and neither is a Braille cell. *)
Theorem g2_unmapped_character_passes_through :
  forall (U : Unicode),
    generate_data.to_braille_g2 (py "1") = py "1"
    /\ forallb is_cell (py "1") = false
    /\ generate_data.to_braille_g1 (py "1") = py "⠀"
    /\ generate_hybrid.encode_g2 (py "@") = py "@"
    /\ forallb is_cell (py "@") = false
    /\ generate_hybrid.encode_g1 (py "@") = py "⠀".
Proof.
  intros U. repeat split; try run_g2;
    unfold generate_data.to_braille_g1, generate_hybrid.encode_g1,
           Engine.g1_encode; simpl map;
    rewrite lower_ascii by reflexivity; vm_compute; reflexivity.
Qed.

(* ================================================================== *)
(** ** Which characters the Grade-2 output can hold *)

Section OutputCharacters.

Variable P : char -> Prop.

Lemma replace_go_Forall (pat rep s : pystr) (skip : nat) :
  Forall P rep -> Forall P s -> Forall P (replace_go pat rep skip s).
Proof.
  intros Hrep Hs. revert skip.
  induction Hs as [|c s Hc Hs IH]; intros skip; cbn [replace_go];
    [constructor|].
  destruct skip; [|apply IH].
  destruct (startswith pat (c :: s)).
  - apply Forall_app. split; [exact Hrep | apply IH].
  - constructor; [exact Hc | apply IH].
Qed.

Lemma replace_Forall (pat rep s : pystr) :
  Forall P rep -> Forall P s -> Forall P (replace pat rep s).
Proof.
  intros Hrep Hs. destruct pat as [|p pat]; [|now apply replace_go_Forall].
  cbn [replace]. apply Forall_app. split; [exact Hrep|].
  induction Hs as [|c s Hc Hs IH]; cbn [flat_map]; [constructor|].
  constructor; [exact Hc|]. apply Forall_app. now split.
Qed.

Lemma contract_Forall (G2_GROUPSIGNS : dict) (word : pystr) :
  Forall (fun pb => Forall P (snd pb)) G2_GROUPSIGNS ->
  Forall P word -> Forall P (Engine.contract G2_GROUPSIGNS word).
Proof.
  intros Hg. unfold Engine.contract.
  assert (Ho : Forall (fun pb => Forall P (snd pb))
                      (Engine.groupsign_order G2_GROUPSIGNS)).
  { rewrite Forall_forall in *. intros pb Hpb. apply Hg.
    eapply Permutation_in; [apply sorted_perm | exact Hpb]. }
  revert word. induction Ho as [|pb order Hpb _ IH]; intros word Hw;
    cbn [fold_left]; [exact Hw|].
  apply IH. now apply replace_Forall.
Qed.

Lemma split_on_Forall (sep : char) (s : pystr) :
  Forall P s -> Forall (Forall P) (split_on sep s).
Proof.
  induction 1 as [|c s Hc Hs IH]; cbn [split_on]; [repeat constructor|].
  destruct (char_eqb c sep); [constructor; [constructor | exact IH]|].
  destruct (split_on sep s) as [|w ws]; [repeat constructor; exact Hc|].
  inversion IH; subst. constructor; [now constructor | assumption].
Qed.

Lemma join_Forall (sep : pystr) (parts : list pystr) :
  Forall P sep -> Forall (Forall P) parts -> Forall P (join sep parts).
Proof.
  intros Hsep. induction 1 as [|p parts Hp Hps IH]; cbn [join];
    [constructor|].
  destruct parts as [|q parts]; [exact Hp|].
  apply Forall_app. split; [exact Hp|]. apply Forall_app. now split.
Qed.

End OutputCharacters.

Section OutputCells.

Context {U : Unicode}.
Variables G1_MAP G2_STRONG G2_WORDSIGNS G2_LOWER G2_GROUPSIGNS : dict.

Hypothesis G1_cells : cell_values G1_MAP.
Hypothesis STRONG_cells : cell_values G2_STRONG.
Hypothesis WORDSIGNS_cells : cell_values G2_WORDSIGNS.
Hypothesis LOWER_cells : cell_values G2_LOWER.
Hypothesis GROUPSIGNS_cells : cell_values G2_GROUPSIGNS.

Lemma lookup_cells (d : dict) (k v : pystr) :
  cell_values d -> lookup d k = Some v ->
  Forall (fun x => is_cell x = true) v.
Proof.
  intros Hd Hk. apply lookup_In in Hk. unfold cell_values in Hd.
  rewrite Forall_forall in Hd. exact (Hd _ Hk).
Qed.

Lemma letter_pass_cells (text contracted : pystr) :
  Forall (fun x => is_cell x = true \/ In x text) contracted ->
  Forall (cell_or_raw G1_MAP text) (Engine.letter_pass G1_MAP contracted).
Proof.
  unfold Engine.letter_pass.
  assert (G : forall final,
             Forall (cell_or_raw G1_MAP text) final ->
             Forall (fun x => is_cell x = true \/ In x text) contracted ->
             Forall (cell_or_raw G1_MAP text)
               (fold_left (fun final c =>
                             match lookup G1_MAP [c] with
                             | Some cell => final ++ cell
                             | None => final ++ [c]
                             end) contracted final)).
  { induction contracted as [|c s IH]; intros final Hf Hs; cbn [fold_left];
      [exact Hf|].
    inversion Hs as [|? ? Hc Hs']; subst. apply IH; [|exact Hs'].
    destruct (lookup G1_MAP [c]) as [cell|] eqn:E;
      apply Forall_app; (split; [exact Hf|]).
    - eapply Forall_impl; [|exact (lookup_cells _ G1_cells E)].
      intros x Hx. now left.
    - constructor; [|constructor].
      destruct Hc as [Hc|Hc]; [now left|]. right. split; [exact Hc|].
      unfold mem. now rewrite E. }
  apply G. constructor.
Qed.

Lemma resolve_word_cells (text word : pystr) :
  Forall (fun x => In x text) word ->
  Forall (cell_or_raw G1_MAP text)
    (Engine.resolve_word G1_MAP G2_STRONG G2_WORDSIGNS G2_LOWER
                         G2_GROUPSIGNS word).
Proof.
  intros Hw. rewrite resolve_word_first_match.
  assert (C : forall v, Forall (fun x => is_cell x = true) v ->
                        Forall (cell_or_raw G1_MAP text) v).
  { intros v Hv. eapply Forall_impl; [|exact Hv]. intros x Hx. now left. }
  destruct (lookup G2_STRONG word) eqn:E1;
    [exact (C _ (lookup_cells _ STRONG_cells E1))|].
  destruct (lookup G2_WORDSIGNS word) eqn:E2;
    [exact (C _ (lookup_cells _ WORDSIGNS_cells E2))|].
  destruct (lookup G2_LOWER word) eqn:E3;
    [exact (C _ (lookup_cells _ LOWER_cells E3))|].
  apply letter_pass_cells. apply contract_Forall.
  - unfold cell_values in GROUPSIGNS_cells.
    eapply Forall_impl; [|exact GROUPSIGNS_cells].
    intros pb Hpb. eapply Forall_impl; [|exact Hpb]. intros x Hx. now left.
  - eapply Forall_impl; [|exact Hw]. intros x Hx. now right.
Qed.

Lemma g2_encode_cells (text : pystr) :
  Forall (cell_or_raw G1_MAP (lower text))
    (Engine.g2_encode G1_MAP G2_STRONG G2_WORDSIGNS G2_LOWER G2_GROUPSIGNS
                      text).
Proof.
  rewrite g2_encode_join. apply join_Forall.
  - repeat constructor.
  - apply Forall_map.
    assert (Hs : Forall (Forall (fun x => In x (lower text)))
                        (split_on 32%N (lower text))).
    { apply split_on_Forall. now apply Forall_forall. }
    eapply Forall_impl; [|exact Hs]. intros word. apply resolve_word_cells.
Qed.

End OutputCells.

Lemma cell_values_check (d : dict) :
  forallb (fun kv => forallb is_cell (snd kv)) d = true -> cell_values d.
Proof.
  intros H. apply Forall_forall. intros kv Hkv.
  rewrite forallb_forall in H. specialize (H kv Hkv).
  apply Forall_forall. now apply forallb_forall.
Qed.

(** X18. What does hold of the Grade-2 output in both files: each character
    is a Braille cell, or a character of the lower-cased input that [G1_MAP]
    does not map. *)
Lemma g2_output_characters (U : Unicode) (text : pystr) :
  Forall (cell_or_raw generate_data.G1_MAP (lower text))
         (generate_data.to_braille_g2 text)
  /\ Forall (cell_or_raw generate_hybrid.G1_MAP (lower text))
            (generate_hybrid.encode_g2 text).
Proof.
  split; apply g2_encode_cells; apply cell_values_check; reflexivity.
Qed.

(* ================================================================== *)
(** ** Bounded compression *)

(** *** ASCII text is read the same way under every [Unicode] *)

Section AsciiText.

Context {U : Unicode}.

Lemma ascii_str_cons (c : char) (s : pystr) :
  ascii_str (c :: s) <-> is_ascii c = true /\ ascii_str s.
Proof. unfold ascii_str. simpl. apply andb_true_iff. Qed.

Lemma ascii_str_app (a b : pystr) :
  ascii_str (a ++ b) <-> ascii_str a /\ ascii_str b.
Proof. unfold ascii_str. rewrite forallb_app. apply andb_true_iff. Qed.

Lemma ascii_lower_keeps_ascii (s : pystr) :
  ascii_str s -> ascii_str (map ascii_lower s).
Proof.
  induction s as [|c s IH]; [auto|].
  simpl map. rewrite !ascii_str_cons. intros [Hc Hs]. split; [|auto].
  revert Hc. unfold is_ascii, ascii_lower. rewrite !N.ltb_lt. intros Hc.
  destruct ((65 <=? c) && (c <=? 90))%N eqn:E; [|exact Hc].
  apply andb_true_iff in E as [_ E]. apply N.leb_le in E. lia.
Qed.

Lemma isspace_same (c : char) :
  is_ascii c = true -> isspace c = @isspace AsciiOnly c.
Proof.
  intros H. rewrite (isspace_ascii c H). simpl. unfold ascii_only_isspace.
  now rewrite H.
Qed.

Lemma isalpha_same (c : char) :
  is_ascii c = true -> isalpha c = @isalpha AsciiOnly c.
Proof.
  intros H. rewrite (isalpha_ascii c H). simpl. unfold ascii_only_isalpha.
  now rewrite H.
Qed.

Lemma split_ws_go_same (s cur : pystr) :
  ascii_str s -> split_ws_go cur s = @split_ws_go AsciiOnly cur s.
Proof.
  revert cur. induction s as [|c s IH]; intros cur; [reflexivity|].
  rewrite ascii_str_cons. intros [Hc Hs]. cbn [split_ws_go].
  rewrite (isspace_same c Hc).
  destruct (@isspace AsciiOnly c); [destruct cur|]; now rewrite IH.
Qed.

Lemma split_ws_go_ascii (s cur : pystr) :
  ascii_str s -> ascii_str cur -> Forall ascii_str (split_ws_go cur s).
Proof.
  revert cur. induction s as [|c s IH]; intros cur.
  - intros _ Hcur. simpl. destruct cur; auto.
  - rewrite ascii_str_cons. intros [Hc Hs] Hcur. simpl.
    destruct (isspace c).
    + destruct cur; [now apply IH|].
      constructor; [exact Hcur | now apply IH].
    + apply IH; [exact Hs|]. apply ascii_str_app. split; [exact Hcur|].
      apply ascii_str_cons. now split.
Qed.

Lemma initials_same (words : list pystr) :
  Forall ascii_str words ->
  Engine.initials words = @Engine.initials AsciiOnly words.
Proof.
  induction 1 as [|w words Hw _ IH]; [reflexivity|].
  unfold Engine.initials in *. cbn [flat_map]. rewrite IH.
  destruct w as [|c w]; [reflexivity|].
  apply ascii_str_cons in Hw as [Hc _]. now rewrite (isalpha_same c Hc).
Qed.

Lemma pad_from_same (n : Z) (rest : pystr) (letters : list char) :
  ascii_str rest ->
  Engine.pad_from n rest letters = @Engine.pad_from AsciiOnly n rest letters.
Proof.
  revert letters. induction rest as [|c rest IH]; intros letters; [reflexivity|].
  rewrite ascii_str_cons. intros [Hc Hr].
  unfold Engine.pad_from in *. cbn [fold_left].
  rewrite (isalpha_same c Hc). now apply IH.
Qed.

Lemma max_len_from_In (best : pystr) (ws : list pystr) :
  In (max_len_from best ws) (best :: ws).
Proof.
  revert best. induction ws as [|w ws IH]; intros best; simpl; [auto|].
  destruct (len best <? len w)%Z.
  - right. apply IH.
  - destruct (IH best) as [E|H]; [left; exact E | right; right; exact H].
Qed.

Lemma longest_word_ascii (words : list pystr) :
  Forall ascii_str words -> ascii_str (tl (Engine.longest_word words)).
Proof.
  intros H. destruct words as [|w ws]; [reflexivity|].
  simpl. rewrite Forall_forall in H.
  specialize (H _ (max_len_from_In w ws)).
  destruct (max_len_from w ws); [reflexivity|].
  now apply ascii_str_cons in H.
Qed.

Lemma pad_loop_same (fuel : nat) (n : Z) (words : list pystr)
      (letters : list char) :
  Forall ascii_str words ->
  Engine.pad_loop fuel n words letters
  = @Engine.pad_loop AsciiOnly fuel n words letters.
Proof.
  intros Hw. revert letters. induction fuel as [|fuel IH]; intros letters;
    cbn [Engine.pad_loop]; [reflexivity|].
  destruct ((len letters <? n)%Z && Engine.nonempty words); [|reflexivity].
  rewrite (pad_from_same n _ (longest_word_ascii Hw)). apply IH.
Qed.

Lemma select_letters_same (fuel : nat) (text : pystr) (n : Z) :
  ascii_str text ->
  Engine.select_letters fuel text n
  = @Engine.select_letters AsciiOnly fuel text n.
Proof.
  intros Ht. unfold Engine.select_letters.
  rewrite (lower_ascii text Ht), (@lower_ascii AsciiOnly text Ht).
  pose proof (ascii_lower_keeps_ascii Ht) as Hl.
  unfold split_ws.
  assert (Hw : Forall ascii_str (split_ws_go [] (map ascii_lower text)))
    by (apply split_ws_go_ascii; [exact Hl | reflexivity]).
  rewrite (split_ws_go_same [] Hl) in *. cbv zeta. rewrite (initials_same Hw), (pad_loop_same fuel n _ Hw).
  reflexivity.
Qed.

Lemma compress_same (G1_MAP : dict) (fuel : nat) (text : pystr) (n : Z) :
  ascii_str text ->
  Engine.compress G1_MAP fuel text n
  = @Engine.compress AsciiOnly G1_MAP fuel text n.
Proof.
  intros Ht. unfold Engine.compress. now rewrite (select_letters_same fuel n Ht).
Qed.

End AsciiText.

(** *** The padding loop *)

Section PadLoop.

Context {U : Unicode}.

Lemma len_app {A} (a b : list A) :
  Z.of_nat (List.length (a ++ b))
  = (Z.of_nat (List.length a) + Z.of_nat (List.length b))%Z.
Proof. rewrite length_app. lia. Qed.

Lemma pad_from_app (n : Z) (rest : pystr) (letters : list char) :
  exists pad, Engine.pad_from n rest letters = letters ++ pad.
Proof.
  unfold Engine.pad_from. revert letters.
  induction rest as [|c rest IH]; intros letters; cbn [fold_left].
  - exists []. now rewrite app_nil_r.
  - destruct (isalpha c && (len letters <? n)%Z); [|apply IH].
    destruct (IH (letters ++ [c])) as [pad ->].
    exists (c :: pad). now rewrite <- app_assoc.
Qed.

Lemma pad_from_mono (n : Z) (rest : pystr) (letters : list char) :
  (len letters <= len (Engine.pad_from n rest letters))%Z.
Proof.
  destruct (pad_from_app n rest letters) as [pad ->].
  unfold len. rewrite len_app. lia.
Qed.

Lemma pad_from_no_alpha (n : Z) (rest : pystr) (letters : list char) :
  existsb isalpha rest = false -> Engine.pad_from n rest letters = letters.
Proof.
  unfold Engine.pad_from. revert letters.
  induction rest as [|c rest IH]; intros letters; cbn [fold_left existsb];
    [reflexivity|].
  intros H. apply orb_false_iff in H as [-> H]. now apply IH.
Qed.

Lemma pad_from_progress (n : Z) (rest : pystr) (letters : list char) :
  (len letters < n)%Z -> existsb isalpha rest = true ->
  (len letters < len (Engine.pad_from n rest letters))%Z.
Proof.
  revert letters. induction rest as [|c rest IH]; intros letters Hn;
    cbn [existsb]; [discriminate|].
  unfold Engine.pad_from. cbn [fold_left].
  destruct (isalpha c); simpl.
  - intros _. apply Z.ltb_lt in Hn as Hb. rewrite Hb.
    pose proof (pad_from_mono n rest (letters ++ [c])) as M.
    unfold Engine.pad_from in M. unfold len in *. rewrite len_app in M.
    simpl in M. lia.
  - intros H. now apply IH.
Qed.

Lemma pad_loop_done (fuel : nat) (n : Z) (words : list pystr)
      (letters : list char) :
  (len letters <? n)%Z && Engine.nonempty words = false ->
  Engine.pad_loop fuel n words letters = Some letters.
Proof. intros H. destruct fuel; simpl; now rewrite H. Qed.

(** The loop only ever appends to [letters]. *)
Lemma pad_loop_app (fuel : nat) (n : Z) (words : list pystr)
      (letters out : list char) :
  Engine.pad_loop fuel n words letters = Some out ->
  exists pad, out = letters ++ pad.
Proof.
  revert letters. induction fuel as [|fuel IH]; intros letters;
    cbn [Engine.pad_loop];
    destruct ((len letters <? n)%Z && Engine.nonempty words);
    try discriminate;
    try (intros [= <-]; exists []; now rewrite app_nil_r).
  intros H. apply IH in H as [pad ->].
  destruct (pad_from_app n (tl (Engine.longest_word words)) letters)
    as [pad' ->].
  exists (pad' ++ pad). now rewrite app_assoc.
Qed.

(** When it exits, the guard is false. *)
Lemma pad_loop_exit (fuel : nat) (n : Z) (words : list pystr)
      (letters out : list char) :
  Engine.pad_loop fuel n words letters = Some out ->
  (len out <? n)%Z && Engine.nonempty words = false.
Proof.
  revert letters. induction fuel as [|fuel IH]; intros letters;
    cbn [Engine.pad_loop];
    destruct ((len letters <? n)%Z && Engine.nonempty words) eqn:G;
    try discriminate; try (intros [= <-]; exact G).
  apply IH.
Qed.

(** A longest word without a letter after its first character supplies
    nothing, and the loop makes no progress. *)
Lemma pad_loop_stuck (n : Z) (words : list pystr) (letters : list char) :
  (len letters <? n)%Z && Engine.nonempty words = true ->
  existsb isalpha (tl (Engine.longest_word words)) = false ->
  forall fuel, Engine.pad_loop fuel n words letters = None.
Proof.
  intros G Hno fuel. induction fuel as [|fuel IH];
    cbn [Engine.pad_loop]; rewrite G; [reflexivity|].
  cbv zeta. now rewrite (pad_from_no_alpha n _ letters Hno).
Qed.

(** Otherwise every pass adds a letter and the loop exits. *)
Lemma pad_loop_returns (fuel : nat) (n : Z) (words : list pystr)
      (letters : list char) :
  existsb isalpha (tl (Engine.longest_word words)) = true ->
  (n - len letters <= Z.of_nat fuel)%Z ->
  exists out, Engine.pad_loop fuel n words letters = Some out.
Proof.
  intros Hal. revert letters. induction fuel as [|fuel IH]; intros letters Hf;
    cbn [Engine.pad_loop];
    destruct ((len letters <? n)%Z && Engine.nonempty words) eqn:G;
    try (eexists; reflexivity).
  - apply andb_true_iff in G as [G _]. apply Z.ltb_lt in G. lia.
  - cbv zeta. apply IH.
    apply andb_true_iff in G as [G _]. apply Z.ltb_lt in G.
    pose proof (pad_from_progress (tl (Engine.longest_word words)) letters G Hal).
    lia.
Qed.

Lemma slice_to_nonneg {A} (n : Z) (l : list A) :
  (0 <= n)%Z -> slice_to n l = firstn (Z.to_nat n) l.
Proof. intros H. unfold slice_to. apply Z.leb_le in H. now rewrite H. Qed.

Lemma len_slice_to {A} (n : Z) (l : list A) :
  (0 <= n)%Z ->
  Z.of_nat (List.length (slice_to n l))
  = Z.min n (Z.of_nat (List.length l)).
Proof. intros H. rewrite slice_to_nonneg, length_firstn by exact H. lia. Qed.

Lemma slice_to_app {A} (n : Z) (l pad : list A) :
  (0 <= n)%Z -> (Z.of_nat (List.length l) <= n)%Z ->
  exists pad', slice_to n (l ++ pad) = l ++ pad'.
Proof.
  intros H0 Hl. rewrite slice_to_nonneg by exact H0.
  rewrite firstn_app, firstn_all2 by lia. eauto.
Qed.

Lemma slice_to_all {A} (n : Z) (l : list A) :
  (0 <= n)%Z -> (Z.of_nat (List.length l) <= n)%Z -> slice_to n l = l.
Proof.
  intros H0 Hl. rewrite slice_to_nonneg by exact H0. apply firstn_all2. lia.
Qed.

(** What [select_letters] returns starts with the initials taken at the
    first assignment. *)
Lemma select_letters_prefix (fuel : nat) (text : pystr) (n : Z)
      (letters : list char) :
  (0 <= n)%Z ->
  Engine.select_letters fuel text n = Some letters ->
  exists pad,
    letters
    = slice_to n (Engine.initials (split_ws (lower text))) ++ pad.
Proof.
  intros H0. unfold Engine.select_letters. cbv zeta.
  set (first := slice_to n (Engine.initials (split_ws (lower text)))).
  destruct (Engine.pad_loop fuel n (split_ws (lower text)) first)
    as [out|] eqn:E; [|discriminate].
  intros [= <-]. apply pad_loop_app in E as [pad ->].
  apply slice_to_app; [exact H0|].
  subst first. rewrite len_slice_to by exact H0. lia.
Qed.

(** With enough initials the loop is not entered. *)
Lemma select_letters_enough_initials (fuel : nat) (text : pystr) (n : Z) :
  (0 <= n)%Z ->
  (n <= len (Engine.initials (split_ws (lower text))))%Z ->
  Engine.select_letters fuel text n
  = Some (slice_to n (Engine.initials (split_ws (lower text)))).
Proof.
  intros H0 Hn. unfold Engine.select_letters. cbv zeta.
  set (first := slice_to n (Engine.initials (split_ws (lower text)))).
  assert (L : Z.of_nat (List.length first) = n).
  { subst first. rewrite len_slice_to by exact H0. unfold len in Hn. lia. }
  rewrite pad_loop_done.
  - rewrite slice_to_all; [reflexivity | exact H0 | lia].
  - unfold len. rewrite L, Z.ltb_irrefl. reflexivity.
Qed.

End PadLoop.

(** The three ways a call can go, for [n >= 0]. *)
Lemma compress_empty_phrase {U : Unicode} (G1_MAP : dict) (fuel : nat)
      (text : pystr) (n : Z) :
  split_ws (lower text) = [] ->
  (0 <= n)%Z ->
  Engine.compress G1_MAP fuel text n = Some ([], Engine.reasoning_of []).
Proof.
  intros Hw H0. unfold Engine.compress, Engine.select_letters. rewrite Hw.
  cbv zeta. simpl Engine.initials.
  rewrite pad_loop_done.
  - rewrite !slice_to_nonneg by exact H0. now rewrite !firstn_nil.
  - apply andb_false_r.
Qed.

Lemma compress_exact_length {U : Unicode} (G1_MAP : dict) (fuel : nat)
      (text : pystr) (n : Z) (letters : list char) :
  (0 <= n)%Z ->
  split_ws (lower text) <> [] ->
  Engine.select_letters fuel text n = Some letters ->
  len letters = n.
Proof.
  intros H0 Hw. unfold Engine.select_letters. cbv zeta.
  destruct (Engine.pad_loop _ _ _ _) as [out|] eqn:E; [|discriminate].
  intros [= <-]. apply pad_loop_exit in E.
  destruct (split_ws (lower text)); [congruence|].
  simpl in E. rewrite andb_true_r in E. apply Z.ltb_ge in E.
  unfold len in *. rewrite len_slice_to by exact H0. lia.
Qed.

Lemma compress_returns_with_padding {U : Unicode} (text : pystr) (n : Z) :
  existsb isalpha (tl (Engine.longest_word (split_ws (lower text)))) = true ->
  exists letters,
    Engine.select_letters (Z.to_nat n) text n = Some letters.
Proof.
  intros Hal. unfold Engine.select_letters. cbv zeta.
  destruct (@pad_loop_returns U (Z.to_nat n) n _
              (slice_to n (Engine.initials (split_ws (lower text)))) Hal)
    as [out ->]; [|eauto].
  unfold len. lia.
Qed.

(** C2 fails on the code: [compress_to_n_cells("a", 2)] does not return.
    One initial is collected, the longest word "a" has nothing after its
    first character, and the [while] loop runs without adding a letter:
    whatever the fuel, the model runs out of it. *)
Theorem compress_single_letter_never_returns :
  forall (U : Unicode) (fuel : nat),
    generate_hybrid.compress_to_n_cells fuel (py "a") 2 = None.
Proof.
  intros U fuel. unfold generate_hybrid.compress_to_n_cells.
  rewrite compress_same by reflexivity.
  unfold Engine.compress, Engine.select_letters. cbv zeta.
  rewrite (@pad_loop_stuck AsciiOnly); reflexivity.
Qed.

(** C7 (as stated) fails: in "1a b" the first alphabetic character of the
    first word is 'a', but the code looks at the first character only,
    skips the word, and returns the cell of 'b'. *)
Lemma compress_first_alphabetic_counterexample :
  option_map fst (@generate_hybrid.compress_to_n_cells AsciiOnly 0 (py "1a b") 1)
  = Some (py "⠃")
  /\ Engine.cells_of generate_hybrid.G1_MAP
       (slice_to 1 (@spec_first_alphabetic AsciiOnly
                      (@split_ws AsciiOnly (@lower AsciiOnly (py "1a b")))))
     = py "⠁"
  /\ option_map fst (@generate_hybrid.compress_to_n_cells AsciiOnly 0 (py "1a b") 1)
     <> Some (Engine.cells_of generate_hybrid.G1_MAP
                (slice_to 1 (@spec_first_alphabetic AsciiOnly
                               (@split_ws AsciiOnly
                                  (@lower AsciiOnly (py "1a b")))))).
Proof. split; [|split]; vm_compute; [reflexivity | reflexivity | discriminate]. Qed.

(** C7 (amended). The letters start with the first character of each word
    whose first character is alphabetic, in word order, cut to [n]: whatever
    is returned extends that selection, and when there are at least [n] such
    words the selection itself is returned.  For "artificial intelligence"
    and 2 these are the cells of 'a' and 'i'. *)
Theorem compress_takes_word_initials :
  forall (U : Unicode) (fuel : nat) (text : pystr) (n : Z),
    (0 <= n)%Z ->
    let first := slice_to n (Engine.initials (split_ws (lower text))) in
    (forall cells reasoning,
        generate_hybrid.compress_to_n_cells fuel text n
        = Some (cells, reasoning) ->
        exists pad,
          cells = Engine.cells_of generate_hybrid.G1_MAP (first ++ pad)
          /\ reasoning = Engine.reasoning_of (first ++ pad))
    /\ ((n <= len (Engine.initials (split_ws (lower text))))%Z ->
        generate_hybrid.compress_to_n_cells fuel text n
        = Some (Engine.cells_of generate_hybrid.G1_MAP first,
                Engine.reasoning_of first))
    /\ generate_hybrid.compress_to_n_cells fuel (py "artificial intelligence") 2
       = Some (py "⠁⠊", py "Uses letters: a, i from key words").
Proof.
  intros U fuel text n H0 first.
  unfold generate_hybrid.compress_to_n_cells. split; [|split].
  - intros cells reasoning. unfold Engine.compress.
    destruct (Engine.select_letters fuel text n) as [letters|] eqn:E;
      [|discriminate].
    intros [= <- <-].
    destruct (select_letters_prefix fuel text H0 E) as [pad ->].
    exists pad. split; reflexivity.
  - intros Hn. unfold Engine.compress.
    now rewrite (select_letters_enough_initials fuel text H0 Hn).
  - rewrite compress_same by reflexivity. unfold Engine.compress.
    rewrite (@select_letters_enough_initials AsciiOnly);
      [reflexivity | lia | vm_compute; discriminate].
Qed.

Lemma compress_takes_word_initials_witness :
  (0 <= 2)%Z
  /\ @generate_hybrid.compress_to_n_cells AsciiOnly 0
       (py "artificial intelligence") 2
     = Some (py "⠁⠊", py "Uses letters: a, i from key words").
Proof.
  split; [lia|].
  refine (proj2 (proj2 (@compress_takes_word_initials AsciiOnly 0
                          (py "artificial intelligence") 2 _))).
  lia.
Defined.

(* ================================================================== *)
(** ** The two Grade-2 encoders side by side *)

Section TwoEncoders.

Lemma replace_absent (pat rep s : pystr) :
  pat <> [] -> contains pat s = false -> replace pat rep s = s.
Proof.
  destruct pat as [|p pat]; [congruence|]. intros _.
  unfold replace.
  induction s as [|c s IH]; [reflexivity|].
  cbn [contains replace_go]. intros H.
  apply orb_false_iff in H as [H1 H2]. rewrite H1. now rewrite IH.
Qed.

Lemma lookup_app (d1 d2 : dict) (k : pystr) :
  lookup (d1 ++ d2) k =
  match lookup d1 k with
  | Some v => Some v
  | None => lookup d2 k
  end.
Proof.
  induction d1 as [|[k' v'] d1 IH]; simpl; [reflexivity|].
  now destruct (str_eqb k k').
Qed.

Lemma letter_pass_loop_same (d extra : dict) (contracted final : pystr) :
  forallb (fun c => negb (mem extra [c])) contracted = true ->
  fold_left (fun final c =>
               match lookup (d ++ extra) [c] with
               | Some cell => final ++ cell
               | None => final ++ [c]
               end) contracted final
  = fold_left (fun final c =>
                 match lookup d [c] with
                 | Some cell => final ++ cell
                 | None => final ++ [c]
                 end) contracted final.
Proof.
  revert final. induction contracted as [|c s IH]; intros final;
    [reflexivity|].
  cbn [forallb fold_left]. intros H. apply andb_true_iff in H as [Hc Hs].
  rewrite lookup_app. unfold mem in Hc.
  destruct (lookup extra [c]); [discriminate|].
  destruct (lookup d [c]); now apply IH.
Qed.

Lemma hybrid_g1_extends_data :
  generate_hybrid.G1_MAP = generate_data.G1_MAP ++ hybrid_only_g1.
Proof. reflexivity. Qed.

Lemma hybrid_order_extends_data :
  Engine.groupsign_order generate_hybrid.G2_GROUPSIGNS
  = Engine.groupsign_order generate_data.G2_GROUPSIGNS
    ++ hybrid_only_groupsigns.
Proof. reflexivity. Qed.

(** Outside the whole-word tables, [generate_hybrid.py] continues where
    [generate_data.py] stops. *)
Lemma hybrid_contract (word : pystr) :
  Engine.contract generate_hybrid.G2_GROUPSIGNS word
  = fold_left (fun contracted pb => replace (fst pb) (snd pb) contracted)
              hybrid_only_groupsigns
              (Engine.contract generate_data.G2_GROUPSIGNS word).
Proof.
  unfold Engine.contract. now rewrite hybrid_order_extends_data, fold_left_app.
Qed.

Lemma lower_tables (word : pystr) :
  lookup generate_data.G2_LOWER word
  = if str_eqb word (py "in") then Some (py "⠔")
    else lookup generate_hybrid.G2_LOWER word.
Proof.
  destruct (str_eqb word (py "in")) eqn:Ein.
  - apply str_eqb_eq in Ein. subst word. reflexivity.
  - unfold generate_data.G2_LOWER, generate_hybrid.G2_LOWER.
    cbn [lookup].
    repeat match goal with
           | |- context [str_eqb word ?k] =>
               let E := fresh "E" in destruct (str_eqb word k) eqn:E
           end;
      try reflexivity;
      match goal with
      | E : str_eqb word _ = true |- _ =>
          apply str_eqb_eq in E; subst word; vm_compute in Ein; discriminate
      end.
Qed.

Lemma resolve_word_same (word : pystr) :
  g2_same_word word = true ->
  generate_data.resolve_word word = generate_hybrid.resolve_word word.
Proof.
  intros Hsame.
  destruct (str_eqb word (py "in")) eqn:Ein.
  { apply str_eqb_eq in Ein. subst word. reflexivity. }
  unfold generate_data.resolve_word, generate_hybrid.resolve_word.
  rewrite !resolve_word_first_match.
  change generate_hybrid.G2_STRONG with generate_data.G2_STRONG.
  change generate_hybrid.G2_WORDSIGNS with generate_data.G2_WORDSIGNS.
  unfold g2_same_word, mem in Hsame. rewrite lower_tables, Ein in *.
  destruct (lookup generate_data.G2_STRONG word); [reflexivity|].
  destruct (lookup generate_data.G2_WORDSIGNS word); [reflexivity|].
  destruct (lookup generate_hybrid.G2_LOWER word); [reflexivity|].
  simpl orb in Hsame. cbv zeta in Hsame.
  apply andb_true_iff in Hsame as [Hg Hc].
  rewrite hybrid_contract.
  set (contracted := Engine.contract generate_data.G2_GROUPSIGNS word) in *.
  unfold hybrid_only_groupsigns in *. cbn [forallb fst snd fold_left] in *.
  rewrite !andb_true_iff, !negb_true_iff in Hg. destruct Hg as (Hen & Hin & _).
  repeat match goal with
         | H : contains ?p contracted = false
           |- context [replace ?p ?r contracted] =>
             rewrite (@replace_absent p r contracted)
               by (discriminate || exact H)
         end.
  unfold Engine.letter_pass. rewrite hybrid_g1_extends_data.
  symmetry. now apply letter_pass_loop_same.
Qed.

End TwoEncoders.

(** C10 (as stated) fails: "en" is a groupsign only in [generate_hybrid.py],
    which gives one cell where [generate_data.py] gives two letters. *)
Lemma g2_encoders_differ_counterexample :
  @generate_data.to_braille_g2 AsciiOnly (py "en")
  <> @generate_hybrid.encode_g2 AsciiOnly (py "en").
Proof. vm_compute. discriminate. Qed.

Example g2_encoders_on_en :
  @generate_data.to_braille_g2 AsciiOnly (py "en") = py "⠑⠝"
  /\ @generate_hybrid.encode_g2 AsciiOnly (py "en") = py "⠢".
Proof. split; reflexivity. Qed.

(** C10 (amended). [to_braille_g2] and [encode_g2] return the same cell
    sequence for every input whose words (of the lower-cased text split at
    single spaces) are all keys of a whole-word table or, after the
    groupsign substitutions of [generate_data.py], free of the clusters
    "en" and "in" and of the characters ' : ; 0..9, which only the tables
    of [generate_hybrid.py] map. *)
Theorem g2_encoders_agree :
  forall (U : Unicode) (text : pystr),
    forallb g2_same_word (split_on 32%N (lower text)) = true ->
    generate_data.to_braille_g2 text = generate_hybrid.encode_g2 text.
Proof.
  intros U text H.
  unfold generate_data.to_braille_g2, generate_hybrid.encode_g2.
  rewrite !g2_encode_join. f_equal.
  apply map_ext_in. intros word Hw.
  rewrite forallb_forall in H. apply resolve_word_same, H, Hw.
Qed.

Lemma g2_encoders_agree_witness :
  forallb g2_same_word
          (split_on 32%N (@lower AsciiOnly (py "the child is walking"))) = true
  /\ @generate_data.to_braille_g2 AsciiOnly (py "the child is walking")
     = @generate_hybrid.encode_g2 AsciiOnly (py "the child is walking").
Proof.
  split; [reflexivity|].
  apply (@g2_encoders_agree AsciiOnly (py "the child is walking")).
  reflexivity.
Defined.

(** A reading of the agreement that looks at the input only: without the
    letter n there is no "en" and no "in" to contract. *)
Section AgreementOnInput.

Lemma startswith_chars (pat s : pystr) :
  startswith pat s = true -> Forall (fun x => In x s) pat.
Proof.
  revert s. induction pat as [|p pat IH]; intros s; [constructor|].
  destruct s as [|c s]; cbn [startswith]; [discriminate|].
  intros H. apply andb_true_iff in H as [Hp Hs].
  apply char_eqb_eq in Hp. subst c. constructor; [now left|].
  eapply Forall_impl; [|exact (IH _ Hs)]. intros x Hx. now right.
Qed.

Lemma contains_chars (pat s : pystr) :
  contains pat s = true -> Forall (fun x => In x s) pat.
Proof.
  induction s as [|c s IH]; cbn [contains].
  - apply startswith_chars.
  - intros H. apply orb_true_iff in H as [H|H];
      [now apply startswith_chars|].
    eapply Forall_impl; [|exact (IH H)]. intros x Hx. now right.
Qed.

Lemma no_n_no_cluster (pat contracted : pystr) :
  In 110%N pat ->
  Forall (fun c => shared_char c = true) contracted ->
  contains pat contracted = false.
Proof.
  intros Hn Hc. destruct (contains pat contracted) eqn:E; [|reflexivity].
  apply contains_chars in E. rewrite Forall_forall in E, Hc.
  specialize (Hc _ (E _ Hn)). discriminate.
Qed.

Lemma shared_chars_same_word (word : pystr) :
  Forall (fun c => shared_char c = true) word -> g2_same_word word = true.
Proof.
  intros Hw. unfold g2_same_word. apply orb_true_iff. right. cbv zeta.
  assert (Hc : Forall (fun c => shared_char c = true)
                      (Engine.contract generate_data.G2_GROUPSIGNS word)).
  { assert (Hg : forallb (fun pb : pystr * pystr =>
                            forallb shared_char (snd pb))
                         generate_data.G2_GROUPSIGNS = true) by reflexivity.
    rewrite forallb_forall in Hg.
    apply contract_Forall; [|exact Hw].
    apply Forall_forall. intros pb Hpb. apply Forall_forall.
    apply forallb_forall, Hg, Hpb. }
  apply andb_true_iff. split.
  - unfold hybrid_only_groupsigns. cbn [forallb fst].
    repeat match goal with
           | |- context [contains ?p ?c] =>
               rewrite (@no_n_no_cluster p c)
                 by first [exact Hc | right; left; reflexivity]
           end.
    reflexivity.
  - apply forallb_forall. intros c Hin. rewrite Forall_forall in Hc.
    specialize (Hc c Hin). unfold shared_char in Hc.
    now apply andb_true_iff in Hc as [_ Hc].
Qed.

End AgreementOnInput.

Lemma g2_encoders_agree_without_n (U : Unicode) (text : pystr) :
  forallb shared_char (lower text) = true ->
  generate_data.to_braille_g2 text = generate_hybrid.encode_g2 text.
Proof.
  intros H.
  unfold generate_data.to_braille_g2, generate_hybrid.encode_g2.
  rewrite !g2_encode_join. f_equal. apply map_ext_in. intros word Hw.
  apply resolve_word_same, shared_chars_same_word.
  assert (Hs : Forall (Forall (fun c => shared_char c = true))
                      (split_on 32%N (lower text))).
  { apply split_on_Forall, Forall_forall. now apply forallb_forall. }
  rewrite Forall_forall in Hs. now apply Hs.
Qed.

(* ================================================================== *)
(** ** Further properties of the Grade-1 codec *)

Section DictFacts.

Lemma In_mem (d : dict) (k v : pystr) : In (k, v) d -> mem d k = true.
Proof.
  unfold mem. induction d as [|[k' v'] d IH]; simpl; [tauto|].
  intros [E|H].
  - inversion E; subst. now rewrite (proj2 (str_eqb_eq k k) eq_refl).
  - destruct (str_eqb k k'); [reflexivity | auto].
Qed.

Lemma mem_In (d : dict) (k : pystr) :
  mem d k = true -> exists v, In (k, v) d.
Proof.
  unfold mem. destruct (lookup d k) as [v|] eqn:E; [|discriminate].
  intros _. exists v. now apply lookup_In.
Qed.

Lemma get_app_left (d extra : dict) (k dflt : pystr) :
  mem extra k = false -> get (d ++ extra) k dflt = get d k dflt.
Proof.
  unfold get, mem. rewrite lookup_app. intros H.
  destruct (lookup d k); [reflexivity|].
  destruct (lookup extra k); [discriminate | reflexivity].
Qed.

Lemma flat_map_one {A B} (f : A -> list B) (l : list A) :
  (forall x, List.length (f x) = 1%nat) ->
  List.length (flat_map f l) = List.length l.
Proof.
  intros H. induction l as [|x l IH]; simpl; [reflexivity|].
  rewrite length_app, H, IH. reflexivity.
Qed.

Lemma ascii_lower_idem (c : char) : ascii_lower (ascii_lower c) = ascii_lower c.
Proof.
  unfold ascii_lower.
  destruct ((65 <=? c) && (c <=? 90))%N eqn:E; [|now rewrite E].
  apply andb_true_iff in E as [E1 E2].
  apply N.leb_le in E1, E2.
  assert ((c + 32 <=? 90)%N = false) as -> by (apply N.leb_gt; lia).
  now rewrite andb_false_r.
Qed.

Lemma ascii_lower_is_ascii (c : char) :
  is_ascii c = true -> is_ascii (ascii_lower c) = true.
Proof.
  intros H. pose proof (@ascii_lower_keeps_ascii [c]) as K.
  unfold ascii_str in K. simpl in K. rewrite H in K.
  specialize (K eq_refl). now apply andb_true_iff in K as [K _].
Qed.

End DictFacts.

Section CodecFacts.

Context {U : Unicode}.

Lemma g1_encode_app (G : dict) (a b : pystr) :
  Engine.g1_encode G (a ++ b) = Engine.g1_encode G a ++ Engine.g1_encode G b.
Proof. rewrite !g1_encode_concat. apply flat_map_app. Qed.

Lemma g1_encode_on_ascii (G : dict) (text : pystr) :
  ascii_str text -> Engine.g1_encode G text = g1_encode_ascii G text.
Proof.
  rewrite g1_encode_concat. unfold g1_encode_ascii.
  induction text as [|c text IH]; [reflexivity|].
  rewrite ascii_str_cons. intros [Hc Ht]. simpl.
  now rewrite (lower_char c Hc), IH.
Qed.

(** Decoding with [D] what was encoded with [E]. *)
Lemma g1_decode_of_encode (E D : dict) :
  forallb (decodes_entry D) E = true ->
  forallb (fun kv => mem E (fst kv)) D = true ->
  Engine.g1_decode D BLANK = py " " ->
  forall s,
    Engine.g1_decode D (Engine.g1_encode E s)
    = flat_map (fun c => if mem D (lower [c]) then lower [c] else py " ") s.
Proof.
  intros HE HD Hblank s. rewrite g1_encode_concat.
  induction s as [|c s IH]; [reflexivity|].
  simpl. rewrite g1_decode_app, IH. f_equal.
  unfold get. destruct (lookup E (lower [c])) as [v|] eqn:Ec.
  - rewrite forallb_forall in HE. specialize (HE _ (lookup_In _ _ Ec)).
    unfold decodes_entry in HE. simpl in HE. now apply str_eqb_eq in HE.
  - rewrite Hblank.
    destruct (mem D (lower [c])) eqn:Dc; [|reflexivity].
    apply mem_In in Dc as [v Dc]. rewrite forallb_forall in HD.
    specialize (HD _ Dc). simpl in HD. unfold mem in HD. now rewrite Ec in HD.
Qed.

(** Encoding with [G] what was decoded with [G]. *)
Lemma g1_encode_of_decode (G : dict) :
  forallb (reencodes_entry G) (Engine.g1_reverse G) = true ->
  get G (py " ") BLANK = BLANK ->
  forall b,
    Engine.g1_encode G (Engine.g1_decode G b) = map (cell_or_blank G) b.
Proof.
  intros HG Hsp b. rewrite g1_decode_concat.
  induction b as [|c b IH]; [reflexivity|].
  simpl. rewrite g1_encode_app, IH.
  change (cell_or_blank G c :: map (cell_or_blank G) b)
    with ([cell_or_blank G c] ++ map (cell_or_blank G) b).
  f_equal. unfold cell_or_blank, get, mem.
  destruct (lookup (Engine.g1_reverse G) [c]) as [k|] eqn:Ec.
  - rewrite forallb_forall in HG. specialize (HG _ (lookup_In _ _ Ec)).
    unfold reencodes_entry in HG. simpl in HG.
    apply andb_true_iff in HG as [HG _].
    apply andb_true_iff in HG as [Hk HG].
    rewrite (g1_encode_on_ascii G Hk). now apply str_eqb_eq in HG.
  - rewrite (@g1_encode_on_ascii G (py " ") eq_refl). unfold g1_encode_ascii.
    simpl flat_map. rewrite app_nil_r. exact Hsp.
Qed.

End CodecFacts.

(** X1. The Grade-1 decoder returns one character per input character, for
    any input: a cell of the table gives its one-character key, anything
    else a space. *)
Theorem g1_decode_length :
  forall b : pystr,
    len (generate_hybrid.decode_g1 b) = len b
    /\ len (validate.decode_g1 b) = len b.
Proof.
  assert (G : forall d : dict,
             forallb (fun kv => Nat.eqb (List.length (fst kv)) 1) d = true ->
             forall b, len (Engine.g1_decode d b) = len b).
  { intros d Hd b. rewrite g1_decode_concat. unfold len. f_equal.
    apply flat_map_one. intros c. unfold get.
    destruct (lookup (Engine.g1_reverse d) [c]) as [k|] eqn:E; [|reflexivity].
    apply lookup_In in E.
    assert (R : forallb (fun kv : pystr * pystr =>
                           Nat.eqb (List.length (snd kv)) 1)
                        (Engine.g1_reverse d) = true).
    { revert Hd. unfold Engine.g1_reverse, invert.
      assert (S : forall l acc,
                 forallb (fun kv : pystr * pystr =>
                            Nat.eqb (List.length (fst kv)) 1) l = true ->
                 forallb (fun kv : pystr * pystr =>
                            Nat.eqb (List.length (snd kv)) 1) acc = true ->
                 forallb (fun kv : pystr * pystr =>
                            Nat.eqb (List.length (snd kv)) 1)
                         (fold_left (fun acc kv => set acc (snd kv) (fst kv))
                                    l acc) = true).
      { induction l as [|[k0 v0] l IHl]; intros acc Hl Hacc; [exact Hacc|].
        simpl in Hl. apply andb_true_iff in Hl as [Hk0 Hl].
        cbn [fold_left fst snd]. apply IHl; [exact Hl|].
        clear - Hk0 Hacc. induction acc as [|[k1 v1] acc IHa]; simpl.
        - now rewrite Hk0.
        - simpl in Hacc. apply andb_true_iff in Hacc as [H1 Hacc].
          destruct (str_eqb v0 k1); simpl.
          + now rewrite Hk0, Hacc.
          + now rewrite H1, IHa. }
      intros Hd. now apply S. }
    rewrite forallb_forall in R. specialize (R _ E). simpl in R.
    now apply Nat.eqb_eq in R. }
  intros b. split; apply G; reflexivity.
Qed.

(** X2. Whatever file encoded a text in Grade 1, the decoder of
    [validate.py] returns the text in lower case with every character that
    is not a letter or a space of its table replaced by a space. *)
Theorem validator_decodes_every_encoder :
  forall (U : Unicode) (s : pystr),
    validate.decode_g1 (validate.encode_g1 s) = flat_map letter_or_space s
    /\ validate.decode_g1 (generate_data.to_braille_g1 s)
       = flat_map letter_or_space s
    /\ validate.decode_g1 (generate_hybrid.encode_g1 s)
       = flat_map letter_or_space s.
Proof.
  intros U s. repeat split; apply g1_decode_of_encode; reflexivity.
Qed.

(** X3. Encoding what the Grade-1 decoder returned gives the cells back:
    [encode_g1(decode_g1(b))] is [b] with every character that is not a
    cell of the table replaced by the blank cell.  This holds in
    [generate_hybrid.py] too, where the other direction loses
    punctuation. *)
Theorem g1_encode_after_decode :
  forall (U : Unicode) (b : pystr),
    generate_hybrid.encode_g1 (generate_hybrid.decode_g1 b)
    = map (cell_or_blank generate_hybrid.G1_MAP) b
    /\ validate.encode_g1 (validate.decode_g1 b)
       = map (cell_or_blank validate.G1_MAP) b.
Proof.
  intros U b. split; apply g1_encode_of_decode; reflexivity.
Qed.

Section EncoderFacts.

Context {U : Unicode}.

Lemma g1_encode_extended (d extra : dict) (s : pystr) :
  forallb (fun c => negb (mem extra (lower [c]))) s = true ->
  Engine.g1_encode (d ++ extra) s = Engine.g1_encode d s.
Proof.
  rewrite !g1_encode_concat.
  induction s as [|c s IH]; [reflexivity|].
  simpl. intros H. apply andb_true_iff in H as [Hc Hs].
  apply negb_true_iff in Hc. now rewrite (get_app_left _ _ _ _ Hc), IH.
Qed.

Lemma lower_lower (s : pystr) : ascii_str s -> lower (lower s) = lower s.
Proof.
  intros H. rewrite (lower_ascii s H).
  rewrite (lower_ascii _ (ascii_lower_keeps_ascii H)), map_map.
  apply map_ext. apply ascii_lower_idem.
Qed.

Lemma g1_encode_lower (G : dict) (s : pystr) :
  ascii_str s -> Engine.g1_encode G (lower s) = Engine.g1_encode G s.
Proof.
  intros H. rewrite (lower_ascii s H).
  rewrite (g1_encode_on_ascii G (ascii_lower_keeps_ascii H)).
  rewrite (g1_encode_on_ascii G H). unfold g1_encode_ascii.
  induction s as [|c s IH]; [reflexivity|].
  apply ascii_str_cons in H as [_ H]. simpl.
  now rewrite ascii_lower_idem, IH.
Qed.

End EncoderFacts.

(** X4. The three Grade-1 encoders differ only through the keys their tables
    do not share: [to_braille_g1] and [encode_g1] of [generate_hybrid.py]
    agree on every text without a character whose lower-case form is one of
    ' : ; 0..9, and [encode_g1] of [validate.py] agrees with [to_braille_g1]
    on every text without a character whose lower-case form is one of
    . , ! ? - *)
Theorem g1_encoders_agree :
  forall (U : Unicode) (s : pystr),
    (forallb (fun c => negb (mem hybrid_only_g1 (lower [c]))) s = true ->
       generate_hybrid.encode_g1 s = generate_data.to_braille_g1 s)
    /\ (forallb (fun c => negb (mem data_only_g1 (lower [c]))) s = true ->
         generate_data.to_braille_g1 s = validate.encode_g1 s).
Proof.
  intros U s. split; intros H.
  - unfold generate_hybrid.encode_g1, generate_data.to_braille_g1.
    rewrite hybrid_g1_extends_data. now apply g1_encode_extended.
  - unfold generate_data.to_braille_g1, validate.encode_g1.
    change generate_data.G1_MAP with (validate.G1_MAP ++ data_only_g1).
    now apply g1_encode_extended.
Qed.

Lemma g1_encoders_agree_witness :
  @generate_hybrid.encode_g1 AsciiOnly (py "Hello, world!")
  = @generate_data.to_braille_g1 AsciiOnly (py "Hello, world!")
  /\ @generate_data.to_braille_g1 AsciiOnly (py "Hello world")
     = @validate.encode_g1 AsciiOnly (py "Hello world").
Proof.
  split.
  - apply (proj1 (@g1_encoders_agree AsciiOnly (py "Hello, world!"))).
    reflexivity.
  - apply (proj2 (@g1_encoders_agree AsciiOnly (py "Hello world"))).
    reflexivity.
Defined.

(** X5. The encoders do not see the case of ASCII letters: a text and its
    lower-case form have the same Grade-1 and the same Grade-2 encoding. *)
Theorem encoders_ignore_ascii_case :
  forall (U : Unicode) (s : pystr),
    ascii_str s ->
    generate_data.to_braille_g1 (lower s) = generate_data.to_braille_g1 s
    /\ generate_hybrid.encode_g1 (lower s) = generate_hybrid.encode_g1 s
    /\ generate_data.to_braille_g2 (lower s) = generate_data.to_braille_g2 s
    /\ generate_hybrid.encode_g2 (lower s) = generate_hybrid.encode_g2 s.
Proof.
  intros U s H. repeat split.
  - now apply g1_encode_lower.
  - now apply g1_encode_lower.
  - unfold generate_data.to_braille_g2, Engine.g2_encode.
    now rewrite (lower_lower H).
  - unfold generate_hybrid.encode_g2, Engine.g2_encode.
    now rewrite (lower_lower H).
Qed.

Lemma encoders_ignore_ascii_case_witness :
  ascii_str (py "The Cat")
  /\ @generate_data.to_braille_g2 AsciiOnly (@lower AsciiOnly (py "The Cat"))
     = @generate_data.to_braille_g2 AsciiOnly (py "The Cat").
Proof.
  split; [reflexivity|].
  apply (@encoders_ignore_ascii_case AsciiOnly (py "The Cat")). reflexivity.
Defined.

Section CellCounts.

Lemma replace_delete (x : char) (s : pystr) :
  replace [x] [] s = filter (fun c => negb (char_eqb x c)) s.
Proof.
  unfold replace. induction s as [|c s IH]; [reflexivity|].
  cbn [replace_go startswith filter List.length pred].
  rewrite andb_true_r. destruct (char_eqb x c); simpl; now rewrite IH.
Qed.

Lemma letter_or_blank_ascii (c : char) :
  letter_or_blank c = true -> is_ascii c = true.
Proof.
  unfold letter_or_blank, ascii_isalpha, is_ascii, char_eqb.
  rewrite !orb_true_iff, !andb_true_iff, !N.leb_le, N.eqb_eq, N.ltb_lt. lia.
Qed.

End CellCounts.

(** X6. For a phrase of ASCII letters and spaces the two counts of the
    compression analysis are equal: the encoding has as many non-blank
    cells as the phrase has non-space characters. *)
Theorem g1_len_is_english_len :
  forall (U : Unicode) (phrase : pystr),
    forallb letter_or_blank phrase = true ->
    validate_probes.g1_len phrase = validate_probes.english_len phrase.
Proof.
  intros U phrase H.
  unfold validate_probes.g1_len, validate_probes.english_len, len.
  f_equal.
  change (py "⠀") with [10240%N]. change (py " ") with [32%N].
  change (py "") with (@nil char). rewrite !replace_delete.
  assert (A : ascii_str phrase).
  { unfold ascii_str. rewrite forallb_forall in *. intros c Hc.
    now apply letter_or_blank_ascii, H. }
  unfold validate.encode_g1. rewrite (g1_encode_on_ascii _ A).
  unfold g1_encode_ascii.
  induction phrase as [|c phrase IH]; [reflexivity|].
  simpl in H. apply andb_true_iff in H as [Hc H].
  apply ascii_str_cons in A as [Ac A].
  cbn [flat_map]. rewrite filter_app, length_app, (IH H A).
  assert (T : forallb counts_alike (map N.of_nat (seq 0 128)) = true)
    by (vm_compute; reflexivity).
  pose proof (ascii_cases _ T c Ac) as K. unfold counts_alike in K.
  rewrite Hc in K. cbn [implb] in K. apply Nat.eqb_eq in K.
  rewrite K. cbn [filter]. destruct (char_eqb 32%N c); reflexivity.
Qed.

Lemma g1_len_is_english_len_witness :
  forallb letter_or_blank (py "hello world") = true
  /\ @validate_probes.g1_len AsciiOnly (py "hello world")
     = validate_probes.english_len (py "hello world").
Proof.
  split; [reflexivity|].
  apply (@g1_len_is_english_len AsciiOnly (py "hello world")). reflexivity.
Defined.

(* ================================================================== *)
(** ** Further properties of the Grade-2 encoder *)

Section SplitJoin.

Lemma split_on_nonempty (sep : char) (s : pystr) : split_on sep s <> [].
Proof.
  destruct s as [|c s]; simpl; [discriminate|].
  destruct (char_eqb c sep); [discriminate|].
  destruct (split_on sep s); discriminate.
Qed.

Lemma split_on_app (sep : char) (a b : pystr) :
  split_on sep (a ++ sep :: b) = split_on sep a ++ split_on sep b.
Proof.
  induction a as [|c a IH]; simpl.
  - unfold char_eqb. now rewrite N.eqb_refl.
  - rewrite IH. destruct (char_eqb c sep); [reflexivity|].
    pose proof (split_on_nonempty sep a) as Hn.
    destruct (split_on sep a) as [|w ws]; [congruence | reflexivity].
Qed.

Lemma split_on_no_sep (sep : char) (w : pystr) :
  existsb (fun c => char_eqb c sep) w = false -> split_on sep w = [w].
Proof.
  induction w as [|c w IH]; [reflexivity|].
  simpl. intros H. apply orb_false_iff in H as [-> H]. now rewrite (IH H).
Qed.

Lemma join_cons (sep p : pystr) (rest : list pystr) :
  rest <> [] -> join sep (p :: rest) = p ++ sep ++ join sep rest.
Proof. destruct rest; [congruence | reflexivity]. Qed.

Lemma join_app (sep : pystr) (l1 l2 : list pystr) :
  l1 <> [] -> l2 <> [] ->
  join sep (l1 ++ l2) = join sep l1 ++ sep ++ join sep l2.
Proof.
  intros H1 H2. induction l1 as [|p l1 IH]; [congruence|].
  destruct l1 as [|q l1].
  - simpl app. now rewrite join_cons.
  - change ((p :: q :: l1) ++ l2) with (p :: ((q :: l1) ++ l2)).
    rewrite !join_cons by discriminate. rewrite IH by discriminate.
    now rewrite <- !app_assoc.
Qed.

(** [' '.join(s.split(' ')) == s] *)
Lemma join_split_on (sep : char) (s : pystr) :
  join [sep] (split_on sep s) = s.
Proof.
  induction s as [|c s IH]; [reflexivity|].
  simpl split_on. pose proof (split_on_nonempty sep s) as Hn.
  destruct (char_eqb c sep) eqn:E.
  - apply char_eqb_eq in E. subst c.
    rewrite join_cons by exact Hn. now rewrite IH.
  - destruct (split_on sep s) as [|w ws]; [congruence|].
    destruct ws as [|w' ws]; simpl in *; now rewrite <- IH.
Qed.

Lemma startswith_length (p s : pystr) :
  startswith p s = true -> (List.length p <= List.length s)%nat.
Proof.
  revert s. induction p as [|x p IH]; intros s; simpl; [lia|].
  destruct s as [|y s]; [discriminate|].
  intros H. apply andb_true_iff in H as [_ H]. apply IH in H. simpl. lia.
Qed.

Lemma replace_go_length (pat rep : pystr) :
  (List.length rep <= List.length pat)%nat ->
  forall s skip,
    (skip <= List.length s)%nat ->
    (List.length (replace_go pat rep skip s) + skip <= List.length s)%nat.
Proof.
  intros Hr. induction s as [|c s IH]; intros skip Hk; simpl in *; [lia|].
  destruct skip as [|k].
  - destruct (startswith pat (c :: s)) eqn:E.
    + apply startswith_length in E. simpl in E.
      rewrite length_app.
      assert (Hp : (pred (List.length pat) <= List.length s)%nat) by lia.
      specialize (IH _ Hp). lia.
    + simpl. specialize (IH 0%nat ltac:(lia)). lia.
  - specialize (IH k ltac:(lia)). lia.
Qed.

Lemma replace_length (pat rep s : pystr) :
  pat <> [] -> (List.length rep <= List.length pat)%nat ->
  (List.length (replace pat rep s) <= List.length s)%nat.
Proof.
  intros Hp Hr. destruct pat as [|p pat]; [congruence|].
  unfold replace.
  pose proof (@replace_go_length (p :: pat) rep Hr s 0%nat ltac:(lia)). lia.
Qed.

Lemma join_map_length (f : pystr -> pystr) (x y : char) (ws : list pystr) :
  (forall w, (List.length (f w) <= List.length w)%nat) ->
  (List.length (join [x] (map f ws)) <= List.length (join [y] ws))%nat.
Proof.
  intros Hf. induction ws as [|w ws IH]; [simpl; lia|].
  destruct ws as [|w' ws]; [apply Hf|].
  change (map f (w :: w' :: ws)) with (f w :: map f (w' :: ws)).
  rewrite !join_cons by discriminate.
  rewrite !length_app. simpl List.length at 2 5.
  specialize (Hf w). lia.
Qed.

End SplitJoin.

Section Grade2Length.

Variables G1_MAP G2_STRONG G2_WORDSIGNS G2_LOWER G2_GROUPSIGNS : dict.

Hypothesis G1_single : single_cells G1_MAP = true.
Hypothesis STRONG_short : shrinking G2_STRONG = true.
Hypothesis WORDSIGNS_short : shrinking G2_WORDSIGNS = true.
Hypothesis LOWER_short : shrinking G2_LOWER = true.
Hypothesis GROUPSIGNS_short : shrinking G2_GROUPSIGNS = true.

Lemma shrinking_lookup (d : dict) (w v : pystr) :
  shrinking d = true -> lookup d w = Some v ->
  (List.length v <= List.length w)%nat.
Proof.
  intros Hd Hw. apply lookup_In in Hw. unfold shrinking in Hd.
  rewrite forallb_forall in Hd. specialize (Hd _ Hw). simpl in Hd.
  apply andb_true_iff in Hd as [_ Hd]. now apply Nat.leb_le.
Qed.

Lemma contract_length (word : pystr) :
  (List.length (Engine.contract G2_GROUPSIGNS word) <= List.length word)%nat.
Proof.
  unfold Engine.contract.
  assert (Ho : Forall (fun pb : pystr * pystr =>
                         fst pb <> []
                         /\ (List.length (snd pb) <= List.length (fst pb))%nat)
                      (Engine.groupsign_order G2_GROUPSIGNS)).
  { apply Forall_forall. intros pb Hpb.
    apply (Permutation_in _ (sorted_perm _ _)) in Hpb.
    unfold shrinking in GROUPSIGNS_short.
    rewrite forallb_forall in GROUPSIGNS_short.
    specialize (GROUPSIGNS_short _ Hpb).
    apply andb_true_iff in GROUPSIGNS_short as [Hn Hl].
    split; [|now apply Nat.leb_le].
    destruct pb as [k v]. simpl in *. intros E. subst k. discriminate Hn. }
  revert word. induction Ho as [|pb order [Hn Hl] _ IH]; intros word;
    cbn [fold_left]; [lia|].
  etransitivity; [apply IH|]. now apply replace_length.
Qed.

Lemma letter_pass_length (contracted : pystr) :
  List.length (Engine.letter_pass G1_MAP contracted) = List.length contracted.
Proof.
  unfold Engine.letter_pass.
  assert (G : forall final,
             List.length
               (fold_left (fun final c =>
                             match lookup G1_MAP [c] with
                             | Some cell => final ++ cell
                             | None => final ++ [c]
                             end) contracted final)
             = (List.length final + List.length contracted)%nat).
  { induction contracted as [|c s IH]; intros final; cbn [fold_left];
      [simpl; lia|].
    rewrite IH. destruct (lookup G1_MAP [c]) as [cell|] eqn:E;
      rewrite length_app; simpl; [|lia].
    apply lookup_In in E. unfold single_cells in G1_single.
    rewrite forallb_forall in G1_single. specialize (G1_single _ E).
    simpl in G1_single. destruct cell as [|x [|y cell]]; try discriminate.
    simpl. lia. }
  apply G.
Qed.

Lemma resolve_word_length (word : pystr) :
  (List.length (Engine.resolve_word G1_MAP G2_STRONG G2_WORDSIGNS G2_LOWER
                                    G2_GROUPSIGNS word)
   <= List.length word)%nat.
Proof.
  rewrite resolve_word_first_match.
  destruct (lookup G2_STRONG word) eqn:E1;
    [exact (shrinking_lookup _ _ STRONG_short E1)|].
  destruct (lookup G2_WORDSIGNS word) eqn:E2;
    [exact (shrinking_lookup _ _ WORDSIGNS_short E2)|].
  destruct (lookup G2_LOWER word) eqn:E3;
    [exact (shrinking_lookup _ _ LOWER_short E3)|].
  rewrite letter_pass_length. apply contract_length.
Qed.

Lemma g2_encode_length {U : Unicode} (text : pystr) :
  (len (Engine.g2_encode G1_MAP G2_STRONG G2_WORDSIGNS G2_LOWER
                         G2_GROUPSIGNS text)
   <= len (lower text))%Z.
Proof.
  rewrite g2_encode_join. unfold len. apply Nat2Z.inj_le.
  rewrite <- (join_split_on 32%N (lower text)) at 2.
  change BLANK with [10240%N].
  apply join_map_length. apply resolve_word_length.
Qed.

End Grade2Length.

Section Grade2Words.

Context {U : Unicode}.
Variables G1_MAP G2_STRONG G2_WORDSIGNS G2_LOWER G2_GROUPSIGNS : dict.

Let resolve := Engine.resolve_word G1_MAP G2_STRONG G2_WORDSIGNS G2_LOWER
                                   G2_GROUPSIGNS.
Let g2 := Engine.g2_encode G1_MAP G2_STRONG G2_WORDSIGNS G2_LOWER
                           G2_GROUPSIGNS.

Lemma lower_app_space (a b : pystr) :
  ascii_str a -> ascii_str b ->
  lower (a ++ 32%N :: b) = lower a ++ 32%N :: lower b.
Proof.
  intros Ha Hb.
  assert (Hab : ascii_str (a ++ 32%N :: b)).
  { apply ascii_str_app. split; [exact Ha|]. now apply ascii_str_cons. }
  rewrite (lower_ascii _ Hab), (lower_ascii _ Ha), (lower_ascii _ Hb).
  now rewrite map_app.
Qed.

Lemma g2_space (a b : pystr) :
  ascii_str a -> ascii_str b ->
  g2 (a ++ 32%N :: b) = g2 a ++ BLANK ++ g2 b.
Proof.
  intros Ha Hb. unfold g2. rewrite !g2_encode_join.
  rewrite (lower_app_space Ha Hb), split_on_app, map_app.
  apply join_app; intros E; apply map_eq_nil in E;
    now apply split_on_nonempty in E.
Qed.

Lemma plain_word_facts (w : pystr) :
  plain_word w = true ->
  ascii_str w /\ lower w = w /\ split_on 32%N w = [w].
Proof.
  unfold plain_word. rewrite !andb_true_iff, negb_true_iff.
  intros [[Ha Hl] Hs]. apply str_eqb_eq in Hl.
  split; [exact Ha|]. split.
  - now rewrite (lower_ascii w Ha).
  - now apply split_on_no_sep.
Qed.

Lemma g2_plain_word (w : pystr) : plain_word w = true -> g2 w = resolve w.
Proof.
  intros H. destruct (plain_word_facts w H) as (_ & Hl & Hs).
  unfold g2. now rewrite g2_encode_join, Hl, Hs.
Qed.

End Grade2Words.

(** X7. On ASCII text the Grade-2 encoders work phrase by phrase: the
    encoding of [a + " " + b] is the encoding of [a], the blank cell, and
    the encoding of [b]. *)
Theorem g2_encodes_phrase_by_phrase :
  forall (U : Unicode) (a b : pystr),
    ascii_str a -> ascii_str b ->
    generate_data.to_braille_g2 (a ++ py " " ++ b)
    = generate_data.to_braille_g2 a ++ py "⠀" ++ generate_data.to_braille_g2 b
    /\ generate_hybrid.encode_g2 (a ++ py " " ++ b)
       = generate_hybrid.encode_g2 a ++ py "⠀" ++ generate_hybrid.encode_g2 b.
Proof.
  intros U a b Ha Hb. split; now apply g2_space.
Qed.

Lemma g2_encodes_phrase_by_phrase_witness :
  ascii_str (py "the cat") /\ ascii_str (py "was out")
  /\ @generate_data.to_braille_g2 AsciiOnly (py "the cat" ++ py " " ++ py "was out")
     = @generate_data.to_braille_g2 AsciiOnly (py "the cat") ++ py "⠀"
       ++ @generate_data.to_braille_g2 AsciiOnly (py "was out").
Proof.
  split; [reflexivity|]. split; [reflexivity|].
  apply (@g2_encodes_phrase_by_phrase AsciiOnly (py "the cat") (py "was out"));
    reflexivity.
Defined.

(** X8. Grade 2 never expands: the output of [to_braille_g2] and of
    [encode_g2] has at most as many characters as the lower-cased input. *)
Theorem g2_never_longer_than_text :
  forall (U : Unicode) (text : pystr),
    (len (generate_data.to_braille_g2 text) <= len (lower text))%Z
    /\ (len (generate_hybrid.encode_g2 text) <= len (lower text))%Z.
Proof.
  intros U text. split; apply g2_encode_length; reflexivity.
Qed.

(** X9. Among groupsign patterns of the same length, the order of the table
    is kept: the stable [sorted] moves a pattern only past shorter ones. *)
Theorem groupsign_ties_keep_table_order :
  forall (G2_GROUPSIGNS : dict) (k : Z),
    filter (fun pb => (len (fst pb) =? k)%Z)
           (Engine.groupsign_order G2_GROUPSIGNS)
    = filter (fun pb => (len (fst pb) =? k)%Z) G2_GROUPSIGNS.
Proof.
  intros G k. unfold Engine.groupsign_order.
  pose proof (sorted_stable (fun x : pystr * pystr => (- len (fst x))%Z)
                            (- k) G) as S.
  assert (E : forall l : list (pystr * pystr),
             filter (fun a => (- len (fst a) =? - k)%Z) l
             = filter (fun pb => (len (fst pb) =? k)%Z) l).
  { intros l. apply filter_ext. intros a.
    destruct (len (fst a) =? k)%Z eqn:H.
    - apply Z.eqb_eq in H. apply Z.eqb_eq. lia.
    - apply Z.eqb_neq in H. apply Z.eqb_neq. lia. }
  now rewrite !E in S.
Qed.

(** X10. [G2_REVERSE] inverts [encode_g2] on the words of [G2_ALL]: such a
    word encodes to its entry in [G2_ALL], and [G2_REVERSE] maps that cell
    sequence back to the word. *)
Theorem g2_reverse_finds_the_word :
  forall (U : Unicode) (word : pystr),
    mem generate_hybrid_tasks.G2_ALL word = true ->
    lookup generate_hybrid_tasks.G2_ALL word
    = Some (generate_hybrid.encode_g2 word)
    /\ lookup generate_hybrid_tasks.G2_REVERSE (generate_hybrid.encode_g2 word)
       = Some word.
Proof.
  intros U word H. unfold mem in H.
  destruct (lookup generate_hybrid_tasks.G2_ALL word) as [v|] eqn:E;
    [|discriminate].
  assert (T : forallb reversible_item generate_hybrid_tasks.G2_ALL = true)
    by (vm_compute; reflexivity).
  rewrite forallb_forall in T. specialize (T _ (lookup_In _ _ E)).
  unfold reversible_item in T. cbn [fst snd] in T.
  apply andb_true_iff in T as [T Hrev]. apply andb_true_iff in T as [Hp Hres].
  apply str_eqb_eq in Hres.
  unfold generate_hybrid.encode_g2. rewrite (g2_plain_word _ _ _ _ _ _ Hp).
  fold generate_hybrid.resolve_word. rewrite Hres. split; [reflexivity|].
  destruct (lookup generate_hybrid_tasks.G2_REVERSE v) as [k|];
    [|discriminate]. apply str_eqb_eq in Hrev. now subst k.
Qed.

Lemma g2_reverse_finds_the_word_witness :
  mem generate_hybrid_tasks.G2_ALL (py "knowledge") = true
  /\ lookup generate_hybrid_tasks.G2_REVERSE
            (@generate_hybrid.encode_g2 AsciiOnly (py "knowledge"))
     = Some (py "knowledge").
Proof.
  split; [reflexivity|].
  apply (@g2_reverse_finds_the_word AsciiOnly (py "knowledge")). reflexivity.
Defined.

(** X11. The "combine" task pairs a cell string with a meaning it does not
    encode: for any two items of [G2_ALL], [encode_g2(meaning)] is the two
    cell sequences with the blank cell between them, never [combined], which
    has them adjacent. *)
Theorem combine_is_not_the_encoding :
  forall (U : Unicode) (item1 item2 : pystr * pystr),
    In item1 generate_hybrid_tasks.G2_ALL ->
    In item2 generate_hybrid_tasks.G2_ALL ->
    generate_hybrid.encode_g2 (snd (generate_hybrid_tasks.combine item1 item2))
    = snd item1 ++ py "⠀" ++ snd item2
    /\ generate_hybrid.encode_g2
         (snd (generate_hybrid_tasks.combine item1 item2))
       <> fst (generate_hybrid_tasks.combine item1 item2).
Proof.
  intros U [w1 b1] [w2 b2] H1 H2.
  assert (T : forallb reversible_item generate_hybrid_tasks.G2_ALL = true)
    by (vm_compute; reflexivity).
  rewrite forallb_forall in T.
  pose proof (T _ H1) as T1. pose proof (T _ H2) as T2.
  unfold reversible_item in T1, T2. cbn [fst snd] in T1, T2.
  apply andb_true_iff in T1 as [T1 _]. apply andb_true_iff in T1 as [P1 R1].
  apply andb_true_iff in T2 as [T2 _]. apply andb_true_iff in T2 as [P2 R2].
  apply str_eqb_eq in R1, R2.
  destruct (plain_word_facts w1 P1) as (A1 & _ & _).
  destruct (plain_word_facts w2 P2) as (A2 & _ & _).
  assert (E : generate_hybrid.encode_g2 (w1 ++ py " " ++ w2)
              = b1 ++ py "⠀" ++ b2).
  { unfold generate_hybrid.encode_g2.
    change (w1 ++ py " " ++ w2) with (w1 ++ 32%N :: w2).
    rewrite (g2_space _ _ _ _ _ A1 A2).
    rewrite (g2_plain_word _ _ _ _ _ _ P1), (g2_plain_word _ _ _ _ _ _ P2).
    fold generate_hybrid.resolve_word. now rewrite R1, R2. }
  cbn [generate_hybrid_tasks.combine fst snd]. split; [exact E|].
  rewrite E. intros C. apply (f_equal (@List.length char)) in C.
  rewrite !length_app in C. simpl in C. lia.
Qed.

Lemma combine_is_not_the_encoding_witness :
  In (py "the", py "⠮") generate_hybrid_tasks.G2_ALL
  /\ In (py "people", py "⠏") generate_hybrid_tasks.G2_ALL
  /\ @generate_hybrid.encode_g2 AsciiOnly
       (snd (generate_hybrid_tasks.combine (py "the", py "⠮")
                                           (py "people", py "⠏")))
     = py "⠮⠀⠏".
Proof.
  assert (H1 : In (py "the", py "⠮") generate_hybrid_tasks.G2_ALL)
    by (apply lookup_In; reflexivity).
  assert (H2 : In (py "people", py "⠏") generate_hybrid_tasks.G2_ALL)
    by (apply lookup_In; reflexivity).
  split; [exact H1|]. split; [exact H2|].
  exact (proj1 (@combine_is_not_the_encoding AsciiOnly _ _ H1 H2)).
Defined.

(* ================================================================== *)
(** ** Further properties of the bounded compression *)

Section CompressFacts.

Context {U : Unicode}.

Lemma cells_of_cells (G1_MAP : dict) (letters : list char) :
  single_cells G1_MAP = true ->
  len (Engine.cells_of G1_MAP letters) = len letters
  /\ forallb is_cell (Engine.cells_of G1_MAP letters) = true.
Proof.
  intros HG. unfold Engine.cells_of, len.
  rewrite join_nil_concat, <- flat_map_concat_map.
  induction letters as [|l letters [IHl IHc]]; simpl; [auto|].
  assert (S : exists x, get G1_MAP [l] BLANK = [x] /\ is_cell x = true).
  { unfold get. destruct (lookup G1_MAP [l]) as [v|] eqn:E.
    - apply lookup_In in E. unfold single_cells in HG.
      rewrite forallb_forall in HG. specialize (HG _ E). simpl in HG.
      destruct v as [|x [|y v]]; try discriminate. eauto.
    - exists 10240%N. split; reflexivity. }
  destruct S as (x & -> & Hx). simpl. rewrite Hx, IHc. split; [lia | reflexivity].
Qed.

Lemma braille_cells_of_cells (cells : pystr) :
  forallb is_cell cells = true -> validate_probes.braille_cells cells = cells.
Proof.
  unfold validate_probes.braille_cells.
  induction cells as [|c cells IH]; [reflexivity|].
  simpl. intros H. apply andb_true_iff in H as [Hc H].
  assert (((10240 <=? c) && (c <=? 10495))%N = true) as ->.
  { unfold is_cell in Hc. apply andb_true_iff in Hc as [H1 H2].
    apply andb_true_iff. split; [exact H1|].
    apply N.ltb_lt in H2. apply N.leb_le. lia. }
  now rewrite IH.
Qed.

Lemma select_letters_length (fuel : nat) (text : pystr) (n : Z)
      (letters : list char) :
  (0 <= n)%Z ->
  Engine.select_letters fuel text n = Some letters ->
  (len letters <= n)%Z.
Proof.
  intros H0. unfold Engine.select_letters. cbv zeta.
  destruct (Engine.pad_loop _ _ _ _) as [out|]; [|discriminate].
  intros [= <-]. unfold len. rewrite len_slice_to by exact H0. lia.
Qed.

Lemma split_ws_go_blank (s : pystr) :
  forallb isspace s = true -> split_ws_go [] s = [].
Proof.
  induction s as [|c s IH]; [reflexivity|].
  simpl. intros H. apply andb_true_iff in H as [-> H]. now apply IH.
Qed.

Lemma blank_text_no_words (text : pystr) :
  blank_text text = true -> split_ws (lower text) = [].
Proof.
  intros H. unfold blank_text in H.
  assert (A : ascii_str text).
  { unfold ascii_str. rewrite forallb_forall in *. intros c Hc.
    specialize (H c Hc). now apply andb_true_iff in H as [H _]. }
  rewrite (lower_ascii text A). apply split_ws_go_blank.
  rewrite forallb_forall in *. intros c Hc.
  apply in_map_iff in Hc as (c' & <- & Hc'). specialize (H c' Hc').
  apply andb_true_iff in H as [Ha Hs].
  assert (L : ascii_lower c' = c').
  { unfold ascii_lower, ascii_isspace in *.
    destruct ((65 <=? c') && (c' <=? 90))%N eqn:E; [|reflexivity].
    apply andb_true_iff in E as [E1 E2]. apply N.leb_le in E1, E2.
    rewrite !orb_true_iff, !andb_true_iff, !N.leb_le in Hs. lia. }
  rewrite L, (isspace_ascii c' Ha). exact Hs.
Qed.

End CompressFacts.

(** X12. When [compress_to_n_cells] returns (for [n >= 0]), its cell
    sequence is made of Braille cells and has at most [n] of them; for a
    phrase with at least one word it has exactly [n], which is what
    [probe_compression] counts as valid. *)
Theorem compress_returns_n_cells :
  forall (U : Unicode) (fuel : nat) (text : pystr) (n : Z)
         (cells reasoning : pystr),
    (0 <= n)%Z ->
    generate_hybrid.compress_to_n_cells fuel text n = Some (cells, reasoning) ->
    (len cells <= n)%Z
    /\ forallb is_cell cells = true
    /\ (split_ws (lower text) <> [] ->
        len cells = n /\ validate_probes.is_valid cells n = true).
Proof.
  intros U fuel text n cells reasoning H0.
  unfold generate_hybrid.compress_to_n_cells, Engine.compress.
  destruct (Engine.select_letters fuel text n) as [letters|] eqn:E;
    [|discriminate].
  intros [= <- <-].
  destruct (cells_of_cells generate_hybrid.G1_MAP letters eq_refl) as [L C].
  split; [|split].
  - rewrite L. exact (select_letters_length fuel text H0 E).
  - exact C.
  - intros Hw.
    pose proof (compress_exact_length generate_hybrid.G1_MAP fuel text H0 Hw E)
      as X.
    split; [now rewrite L|].
    unfold validate_probes.is_valid. rewrite (braille_cells_of_cells _ C).
    apply Z.eqb_eq. now rewrite L.
Qed.

Lemma compress_returns_n_cells_witness :
  (0 <= 3)%Z
  /\ @generate_hybrid.compress_to_n_cells AsciiOnly 3 (py "blood pressure") 3
     = Some (py "⠃⠏⠗", py "Uses letters: b, p, r from key words")
  /\ validate_probes.is_valid (py "⠃⠏⠗") 3 = true.
Proof.
  split; [lia|]. split; [reflexivity|].
  refine (proj2 (proj2 (proj2 (@compress_returns_n_cells AsciiOnly 3
            (py "blood pressure") 3 (py "⠃⠏⠗")
            (py "Uses letters: b, p, r from key words") _ eq_refl)) _)).
  - lia.
  - vm_compute. discriminate.
Defined.

(** X13. [compress_to_n_cells] returns whenever the longest word of the
    phrase (the first of them) has a letter after its first character:
    [n] passes of the loop are enough. *)
Theorem compress_returns_when_longest_word_has_letters :
  forall (U : Unicode) (fuel : nat) (text : pystr) (n : Z),
    existsb isalpha (tl (Engine.longest_word (split_ws (lower text)))) = true ->
    (n <= Z.of_nat fuel)%Z ->
    exists cells reasoning,
      generate_hybrid.compress_to_n_cells fuel text n = Some (cells, reasoning).
Proof.
  intros U fuel text n Hal Hf.
  unfold generate_hybrid.compress_to_n_cells, Engine.compress,
         Engine.select_letters. cbv zeta.
  destruct (@pad_loop_returns U fuel n _
              (slice_to n (Engine.initials (split_ws (lower text)))) Hal)
    as [out ->]; [|eauto].
  unfold len. lia.
Qed.

Lemma compress_returns_when_longest_word_has_letters_witness :
  @generate_hybrid.compress_to_n_cells AsciiOnly 3 (py "ab") 3
  = Some (py "⠁⠃⠃", py "Uses letters: a, b, b from key words")
  /\ exists cells reasoning,
       @generate_hybrid.compress_to_n_cells AsciiOnly 3 (py "ab") 3
       = Some (cells, reasoning).
Proof.
  split; [reflexivity|].
  apply (@compress_returns_when_longest_word_has_letters AsciiOnly 3
           (py "ab") 3); [reflexivity | lia].
Defined.

(** X14. [compress_to_n_cells] does not return when fewer than [n] words
    start with a letter, the phrase has a word, and the longest word (the
    first of them) has no letter after its first character: the loop goes
    on without adding anything. *)
Theorem compress_loops_when_longest_word_has_no_letters :
  forall (U : Unicode) (fuel : nat) (text : pystr) (n : Z),
    (len (Engine.initials (split_ws (lower text))) < n)%Z ->
    split_ws (lower text) <> [] ->
    existsb isalpha (tl (Engine.longest_word (split_ws (lower text)))) = false ->
    generate_hybrid.compress_to_n_cells fuel text n = None.
Proof.
  intros U fuel text n Hlt Hw Hno.
  unfold generate_hybrid.compress_to_n_cells, Engine.compress,
         Engine.select_letters. cbv zeta.
  assert (H0 : (0 <= n)%Z) by (unfold len in Hlt; lia).
  rewrite slice_to_all by (exact H0 || (unfold len in Hlt; lia)).
  rewrite pad_loop_stuck; [reflexivity | | exact Hno].
  apply andb_true_iff. split; [now apply Z.ltb_lt|].
  destruct (split_ws (lower text)); [congruence | reflexivity].
Qed.

Lemma compress_loops_when_longest_word_has_no_letters_witness :
  @generate_hybrid.compress_to_n_cells AsciiOnly 1000 (py "x y") 3 = None.
Proof.
  apply (@compress_loops_when_longest_word_has_no_letters AsciiOnly 1000
           (py "x y") 3); [reflexivity | discriminate | reflexivity].
Defined.

(** X15. A phrase of blanks has no words: for [n >= 0] the call returns the
    empty cell sequence at once, with the reasoning text of an empty letter
    list. *)
Theorem compress_of_blank_phrase :
  forall (U : Unicode) (fuel : nat) (text : pystr) (n : Z),
    (0 <= n)%Z ->
    blank_text text = true ->
    generate_hybrid.compress_to_n_cells fuel text n
    = Some (py "", py "Uses letters:  from key words").
Proof.
  intros U fuel text n H0 Hb.
  unfold generate_hybrid.compress_to_n_cells.
  now rewrite (compress_empty_phrase _ fuel text (blank_text_no_words text Hb) H0).
Qed.

Lemma compress_of_blank_phrase_witness :
  (0 <= 2)%Z /\ blank_text (py "   ") = true
  /\ @generate_hybrid.compress_to_n_cells AsciiOnly 0 (py "   ") 2
     = Some (py "", py "Uses letters:  from key words").
Proof.
  split; [lia|]. split; [reflexivity|].
  apply (@compress_of_blank_phrase AsciiOnly 0 (py "   ") 2);
    [lia | reflexivity].
Defined.

(** X16. For [n <= 0] the loop is never entered: the call returns for every
    phrase, with the initials sliced twice by [[:n]], that is with nothing
    for [n = 0]. *)
Theorem compress_with_nonpositive_n :
  forall (U : Unicode) (fuel : nat) (text : pystr) (n : Z),
    (n <= 0)%Z ->
    let letters :=
      slice_to n (slice_to n (Engine.initials (split_ws (lower text)))) in
    generate_hybrid.compress_to_n_cells fuel text n
    = Some (Engine.cells_of generate_hybrid.G1_MAP letters,
            Engine.reasoning_of letters)
    /\ (n = 0%Z -> letters = []).
Proof.
  intros U fuel text n Hn letters.
  unfold generate_hybrid.compress_to_n_cells, Engine.compress,
         Engine.select_letters. cbv zeta.
  rewrite pad_loop_done.
  - split; [reflexivity|]. intros ->. reflexivity.
  - apply andb_false_iff. left. apply Z.ltb_ge. unfold len. lia.
Qed.

Lemma compress_with_nonpositive_n_witness :
  (0 <= 0)%Z
  /\ @generate_hybrid.compress_to_n_cells AsciiOnly 0 (py "hello world") 0
     = Some (py "", py "Uses letters:  from key words").
Proof.
  split; [lia|].
  refine (proj1 (@compress_with_nonpositive_n AsciiOnly 0 (py "hello world")
                   0 _)).
  lia.
Defined.

(* ================================================================== *)
(** ** The tokenizer vocabulary *)

Lemma cell_range (c : char) :
  is_cell c = true ->
  In c (map (fun i => (10240 + N.of_nat i)%N) (seq 0 256)).
Proof.
  unfold is_cell. rewrite andb_true_iff, N.leb_le, N.ltb_lt. intros [H1 H2].
  apply in_map_iff. exists (N.to_nat (c - 10240)). split; [lia|].
  apply in_seq. lia.
Qed.

(** X17. The vocabulary of the tokenizer gives every Braille cell the id 4
    plus its offset in the block, after the four special tokens; every
    character that a Grade-1 encoder outputs therefore has an id. *)
Theorem vocab_covers_grade1_output :
  forall (U : Unicode) (s : pystr) (c : char),
    (is_cell c = true ->
       More.lookup_in braille_tokenizer.vocab [c]
       = Some (Z.of_N c - 10240 + 4)%Z)
    /\ forallb has_cell_id (generate_data.to_braille_g1 s) = true
    /\ forallb has_cell_id (generate_hybrid.encode_g1 s) = true.
Proof.
  assert (T : forall c, is_cell c = true -> has_cell_id c = true).
  { assert (K : forallb has_cell_id
                  (map (fun i => (10240 + N.of_nat i)%N) (seq 0 256)) = true)
      by (vm_compute; reflexivity).
    rewrite forallb_forall in K. intros c Hc. now apply K, cell_range. }
  assert (E : forall (U : Unicode) G s,
             single_cells G = true ->
             forallb has_cell_id (Engine.g1_encode G s) = true).
  { intros U G s HG. apply forallb_forall. intros c Hc. apply T.
    destruct (g1_encode_one_cell_per_char G HG s) as [_ C].
    rewrite forallb_forall in C. now apply C. }
  intros U s c. split; [|split].
  - intros Hc. specialize (T c Hc). unfold has_cell_id in T.
    destruct (More.lookup_in braille_tokenizer.vocab [c]) as [i|];
      [|discriminate]. apply Z.eqb_eq in T. now subst i.
  - apply E. reflexivity.
  - apply E. reflexivity.
Qed.

Lemma vocab_covers_grade1_output_witness :
  is_cell 10241%N = true
  /\ More.lookup_in braille_tokenizer.vocab (py "⠁") = Some 5%Z.
Proof.
  split; [reflexivity|].
  exact (proj1 (@vocab_covers_grade1_output AsciiOnly [] 10241%N) eq_refl).
Defined.

(** X19. The answers [probe_g2_staples] expects are the ones the data
    generators produce: for every word of [validate.py]'s [G2_STRONG], both
    Grade-2 encoders return exactly the cell stored there. *)
Theorem staples_match_the_encoders :
  forall (U : Unicode) (word expected : pystr),
    lookup validate_probes.G2_STRONG word = Some expected ->
    generate_data.to_braille_g2 word = expected
    /\ generate_hybrid.encode_g2 word = expected.
Proof.
  intros U word expected H.
  assert (T : forallb staple_agrees validate_probes.G2_STRONG = true)
    by (vm_compute; reflexivity).
  rewrite forallb_forall in T. specialize (T _ (lookup_In _ _ H)).
  unfold staple_agrees in T. cbn [fst snd] in T.
  apply andb_true_iff in T as [T Rh]. apply andb_true_iff in T as [P Rd].
  apply str_eqb_eq in Rd, Rh.
  unfold generate_data.to_braille_g2, generate_hybrid.encode_g2.
  rewrite !(g2_plain_word _ _ _ _ _ _ P).
  fold generate_data.resolve_word. fold generate_hybrid.resolve_word.
  now rewrite Rd, Rh.
Qed.

Lemma staples_match_the_encoders_witness :
  lookup validate_probes.G2_STRONG (py "with") = Some (py "⠾")
  /\ @generate_data.to_braille_g2 AsciiOnly (py "with") = py "⠾".
Proof.
  split; [reflexivity|].
  exact (proj1 (@staples_match_the_encoders AsciiOnly (py "with") (py "⠾")
                  eq_refl)).
Defined.

(* ================================================================== *)
(** ** Precedence of the whole-word tables, word by word *)

Section WordsOfAPhrase.

Context {U : Unicode}.







End WordsOfAPhrase.




